(** * Panel simulation of multiply-or-release (src/src/panel_plugin.rs)

    A shallow embedding of the panel systems: the trigger translator
    [trigger_event], the zone-exit recycler [ball_reset], the spawner
    [spawn_workers] with its run condition, the trail update
    [update_workers_particle_position], the shape caster
    [WorkerBallShapeCaster::get] and [restart].

    Modelling choices.
    - Entities are [nat] ids.  The ECS world is a record holding the trigger
      zones, the [GlobalTransform]s of the static entities of [setup], the
      worker balls and the trails, each keyed by its entity id.
    - A list of trails is the iteration order of the query of the system
      run at hand.  Archetype moves (adding or removing a trail's marker
      component) may change that order between runs, so results chaining
      several systems are stated independently of it.
    - Coordinates are rationals [Q]; every constant of the source touched
      here is an integer, and the only float operations the claims depend on
      are additions and comparisons.
    - The thread-local random generator is the list of samples it yields
      next.  [WorkerBallShapeCaster::get] loops on an infinite iterator; a
      finite list of samples stands for a prefix of it, and [None] means
      "the loop has not returned within this prefix".
    - The rapier query [intersection_with_shape] (dynamic bodies of the
      worker-ball group, ball-sized shape) is a predicate on the world point
      where the shape is centred.  Within one system run it is fixed: the
      query pipeline is only refreshed by the physics step.
    - [Commands] are deferred in Bevy; the systems below return the world as
      it is once their commands have been applied. *)

From Stdlib Require Import List Bool Arith Lia QArith Qabs NArith ZArith Qround Lqa Permutation.
From Stdlib Require Ascii Strings.String.
Import ListNotations.

Local Open Scope Q_scope.

(** ** Identifiers and components *)

Definition Entity := nat.

Inductive Participant := A | B | C | D.

Inductive TriggerType :=
| Multiply (factor : nat)
| BurstShot
| ChargedShot.

Inductive PanelRootSide := Left | Right.

Definition for_participant (p : Participant) : PanelRootSide :=
  match p with
  | A | B => Left
  | C | D => Right
  end.

Definition side_eqb (s1 s2 : PanelRootSide) : bool :=
  match s1, s2 with
  | Left, Left | Right, Right => true
  | _, _ => false
  end.

(** ** Constants *)

Definition LEFT_ROOT_X : Q := -500.
Definition RIGHT_ROOT_X : Q := 500.
Definition ARENA_WIDTH : Q := 260.
Definition ARENA_WIDTH_FRAC_2 : Q := 130.
Definition WORKER_BALL_RADIUS : Q := 5.
Definition WORKER_BALL_DIAMETER : Q := 10.
Definition WORKER_BALL_SPAWN_Y : Q := 320.
Definition WORKER_BALL_COUNT_MAX : nat := 6.

(** The panel roots spawned by [setup]: their global translation. *)
Definition root_translation (s : PanelRootSide) : Q * Q :=
  match s with
  | Left => (LEFT_ROOT_X, 0)
  | Right => (RIGHT_ROOT_X, 0)
  end.

(** ** Events *)

Inductive CollisionEvent :=
| Started (a b : Entity)
| Stopped (a b : Entity).

Record TriggerEvent := {
  te_participant : Participant;
  te_trigger_type : TriggerType;
}.

(** ** Worker balls and trails *)

(** A [WorkerBallBundle]: the [Participant] component, the parent panel
    (set by [set_parent]), the local translation and the velocity. *)
Record Ball := {
  ball_id : Entity;
  ball_owner : Participant;
  ball_parent : PanelRootSide;
  ball_x : Q;
  ball_y : Q;
  ball_vel : Q * Q;
}.

(** The trail spawn colour: [LinearRgba::NONE] or the participant's
    [TileColor]. *)
Inductive Color := ColorNone | ColorOf (p : Participant).

(** A trail carries either [WorkerBallTrail(ball)] or
    [InactiveWorkerBallTrail(is_left)]. *)
Inductive TrailLink :=
| Active (ball : Entity)
| Inactive (is_left : bool).

Record Trail := {
  trail_id : Entity;
  trail_link : TrailLink;
  trail_color : Color;
  trail_pos : Q * Q;
}.

(** ** The trigger translator [trigger_event] *)

Section Translator.

(** [trigger_zone_query.get]: the [TriggerType] of a trigger zone. *)
Variable trigger_zone_query : Entity -> option TriggerType.
(** [worker_ball_query.get]: the [Participant] of a worker ball. *)
Variable worker_ball_query : Entity -> option Participant.

(** The body of the [for] loop for one collision event. *)
Definition trigger_event_one (ev : CollisionEvent) : list TriggerEvent :=
  match ev with
  | Started a b =>
      match (match trigger_zone_query a with
             | Some x => Some x
             | None => trigger_zone_query b
             end) with
      | None => []
      | Some trigger_type =>
          match (match worker_ball_query a with
                 | Some x => Some x
                 | None => worker_ball_query b
                 end) with
          | None => []
          | Some participant =>
              [ {| te_participant := participant;
                   te_trigger_type := trigger_type |} ]
          end
      end
  | Stopped _ _ => []
  end.

(** [trigger_event]: when the restart reader is not empty, the collision
    reader is cleared before the loop; the loop then sends the events in
    order. *)
Definition trigger_event (restart_events : nat) (collision_events : list CollisionEvent)
  : list TriggerEvent :=
  let pending := if Nat.eqb restart_events 0 then collision_events else [] in
  flat_map trigger_event_one pending.

End Translator.

(** ** Sampling and the shape caster *)

(** [Qlt] as a boolean, as the source's [>] on [f32]. *)
Definition Qlt_bool (x y : Q) : bool := negb (Qle_bool y x).

(** [rand::distributions::Uniform::new(low, high)] on [f32]: the half-open
    range [[low, high)].  Sampling maps a raw draw [u] in [[0, 1)] to
    [u * (high - low) + low]. *)
Record Uniform := { u_low : Q; u_high : Q }.

Definition uniform_sample (d : Uniform) (u : Q) : Q :=
  u * (u_high d - u_low d) + u_low d.

(** The distribution both call sites pass:
    [Uniform::new(-ARENA_WIDTH_FRAC_2, ARENA_WIDTH_FRAC_2)]. *)
Definition panel_dist : Uniform :=
  {| u_low := - ARENA_WIDTH_FRAC_2; u_high := ARENA_WIDTH_FRAC_2 |}.

(** The horizontal span of a panel, relative to its root. *)
Definition in_panel_span (x : Q) : bool :=
  Qle_bool (- ARENA_WIDTH_FRAC_2) x && Qlt_bool x ARENA_WIDTH_FRAC_2.

(** [WorkerBallShapeCaster]: the root position and the distribution; its
    [rng_iter] is the generator stream passed to [get]. *)
Record WorkerBallShapeCaster := {
  root_position : Q * Q;
  dist : Uniform;
}.

Section Caster.

(** [rapier.intersection_with_shape(point, 0.0, collider,
    QueryFilter::only_dynamic().groups(PANEL_BALLS, PANEL_BALLS)).is_some()]
    for a worker-ball collider centred at [point]. *)
Variable intersects : Q * Q -> bool.

(** [WorkerBallShapeCaster::get]: the first sample whose shape, centred at
    [(x + root.x, WORKER_BALL_SPAWN_Y + root.y)], hits nothing. *)
Fixpoint caster_get (c : WorkerBallShapeCaster) (rng : list Q)
  : option (Q * list Q) :=
  match rng with
  | [] => None
  | u :: rng' =>
      let x := uniform_sample (dist c) u in
      if intersects (x + fst (root_position c),
                     WORKER_BALL_SPAWN_Y + snd (root_position c))
      then caster_get c rng'
      else Some (x, rng')
  end.

(** The [loop] of the paired case of [spawn_workers]:
    [xa = caster.get(); xb = caster.get();
     if (xa - xb).abs() > WORKER_BALL_DIAMETER { break }].
    Every iteration draws at least two samples, so [length rng] iterations
    cover every run that returns within the stream [rng]. *)
Fixpoint pair_loop (c : WorkerBallShapeCaster) (fuel : nat) (rng : list Q)
  : option (Q * Q * list Q) :=
  match fuel with
  | O => None
  | S fuel' =>
      match caster_get c rng with
      | None => None
      | Some (xa, rng1) =>
          match caster_get c rng1 with
          | None => None
          | Some (xb, rng2) =>
              if Qlt_bool WORKER_BALL_DIAMETER (Qabs (xa - xb))
              then Some (xa, xb, rng2)
              else pair_loop c fuel' rng2
          end
      end
  end.

Definition pair_draw (c : WorkerBallShapeCaster) (rng : list Q)
  : option (Q * Q * list Q) :=
  pair_loop c (length rng) rng.

(** The successive results of [get] on one caster: the draws the oracle
    hands out, in order, until the stream runs out. *)
Fixpoint caster_results (c : WorkerBallShapeCaster) (fuel : nat) (rng : list Q)
  : list Q :=
  match fuel with
  | O => []
  | S fuel' =>
      match caster_get c rng with
      | None => []
      | Some (x, rng') => x :: caster_results c fuel' rng'
      end
  end.

End Caster.

(** ** The spawner timer: [bevy_time::Timer] in [TimerMode::Repeating]

    Durations are nanoseconds.  The timer is never paused here. *)
Record Timer := {
  t_duration : N;
  t_elapsed : N;
  t_finished : bool;
  t_times_finished_this_tick : N;
}.

Definition u32_max : N := 4294967295.

(** [Timer::tick] for a repeating, unpaused timer: the count is
    [checked_div(..).map_or(u32::MAX, |x| x as u32)] and the new elapsed
    time [checked_rem(..).map_or(Duration::ZERO, ..)]. *)
Definition timer_tick (delta : N) (t : Timer) : Timer :=
  let elapsed := (t_elapsed t + delta)%N in
  if N.leb (t_duration t) elapsed then
    let times :=
      if N.eqb (t_duration t) 0 then u32_max
      else N.modulo (elapsed / t_duration t) (u32_max + 1) in
    {| t_duration := t_duration t;
       t_elapsed :=
         if N.eqb (t_duration t) 0 then 0 else N.modulo elapsed (t_duration t);
       t_finished := true;
       t_times_finished_this_tick := times |}
  else
    {| t_duration := t_duration t;
       t_elapsed := elapsed;
       t_finished := false;
       t_times_finished_this_tick := 0 |}.

Definition just_finished (t : Timer) : bool :=
  negb (N.eqb (t_times_finished_this_tick t) 0).

(** [Timer::reset]. *)
Definition timer_reset (t : Timer) : Timer :=
  {| t_duration := t_duration t;
     t_elapsed := 0;
     t_finished := false;
     t_times_finished_this_tick := 0 |}.

(** [Timer::from_seconds(secs, TimerMode::Repeating)]. *)
Definition timer_from_ns (d : N) : Timer :=
  {| t_duration := d;
     t_elapsed := 0;
     t_finished := false;
     t_times_finished_this_tick := 0 |}.

(** [WORKER_BALL_SPAWN_TIMER_SECS] in nanoseconds. *)
Definition WORKER_BALL_SPAWN_TIMER_NS : N := 10000000000.

Record WorkerBallSpawner := {
  timer : Timer;
  counter : nat;
}.

(** [WorkerBallSpawner::new] and [WorkerBallSpawner::reset].  [phase] is
    [Duration::from_secs_f32(WORKER_BALL_SPAWN_TIMER_SECS - TRAIL_LIFETIME)]
    ([TRAIL_LIFETIME] lives in the [utils] module). *)
Definition spawner_new (phase : N) : WorkerBallSpawner :=
  {| timer := timer_tick phase (timer_from_ns WORKER_BALL_SPAWN_TIMER_NS);
     counter := 0 |}.

Definition spawner_reset (phase : N) (s : WorkerBallSpawner) : WorkerBallSpawner :=
  {| timer := timer_tick phase (timer_reset (timer s));
     counter := 0 |}.

(** [spawn_workers_condition]. *)
Definition spawn_workers_condition (s : WorkerBallSpawner) : bool :=
  Nat.ltb (counter s) WORKER_BALL_COUNT_MAX.

(** ** The ECS world *)

Record World := {
  zones : list (Entity * TriggerType);
  (** the translations of the [GlobalTransform]s of the entities [setup]
      spawns, which never move: panel roots, walls, obstacles, trigger
      zones, dividers and texts *)
  statics : list (Entity * (Q * Q));
  balls : list Ball;
  trails : list Trail;
  next_entity : Entity;
  spawner : WorkerBallSpawner;
  (** the [Local<bool>] [go_left] of [update_workers_particle_position] *)
  go_left : bool;
}.

Definition set_balls (bs : list Ball) (w : World) : World :=
  {| zones := zones w; statics := statics w; balls := bs; trails := trails w;
     next_entity := next_entity w; spawner := spawner w; go_left := go_left w |}.
Definition set_trails (ts : list Trail) (w : World) : World :=
  {| zones := zones w; statics := statics w; balls := balls w; trails := ts;
     next_entity := next_entity w; spawner := spawner w; go_left := go_left w |}.
Definition set_spawner (s : WorkerBallSpawner) (w : World) : World :=
  {| zones := zones w; statics := statics w; balls := balls w; trails := trails w;
     next_entity := next_entity w; spawner := s; go_left := go_left w |}.
Definition set_go_left (b : bool) (w : World) : World :=
  {| zones := zones w; statics := statics w; balls := balls w; trails := trails w;
     next_entity := next_entity w; spawner := spawner w; go_left := b |}.

(** [commands.spawn(..).id()]: a fresh entity. *)
Definition fresh (w : World) : Entity * World :=
  (next_entity w,
   {| zones := zones w; statics := statics w; balls := balls w; trails := trails w;
      next_entity := S (next_entity w); spawner := spawner w; go_left := go_left w |}).

(** [Query<&TriggerType>::get] and [Query<&Participant, With<WorkerBall>>::get]. *)
Definition zone_of (w : World) (e : Entity) : option TriggerType :=
  match find (fun z => Nat.eqb (fst z) e) (zones w) with
  | Some (_, t) => Some t
  | None => None
  end.

Definition find_ball (w : World) (e : Entity) : option Ball :=
  find (fun b => Nat.eqb (ball_id b) e) (balls w).

Definition ball_query (w : World) (e : Entity) : option Participant :=
  option_map ball_owner (find_ball w e).

(** [GlobalTransform] of a ball: its parent root's translation plus its
    local translation. *)
Definition ball_global (b : Ball) : Q * Q :=
  (fst (root_translation (ball_parent b)) + ball_x b,
   snd (root_translation (ball_parent b)) + ball_y b).

(** The [GlobalTransform] translation of an entity that is not a worker
    ball: a trail is a top-level [ParticleEffectBundle] whose [Transform]
    stays the default one, so it sits at the origin; the other entities are
    those of [statics]. *)
Definition static_transform (w : World) (e : Entity) : option (Q * Q) :=
  if existsb (fun t => Nat.eqb (trail_id t) e) (trails w) then Some (0, 0)
  else option_map snd (find (fun s => Nat.eqb (fst s) e) (statics w)).

(** [Query<&GlobalTransform>::get]: a worker ball's translation is its
    global position. *)
Definition transform_query (w : World) (e : Entity) : option (Q * Q) :=
  match find_ball w e with
  | Some b => Some (ball_global b)
  | None => static_transform w e
  end.

Definition is_inactive_side (want_left : bool) (t : Trail) : bool :=
  match trail_link t with
  | Inactive is_left => Bool.eqb is_left want_left
  | Active _ => false
  end.

Definition update_trail (id : Entity) (f : Trail -> Trail) (ts : list Trail)
  : list Trail :=
  map (fun t => if Nat.eqb (trail_id t) id then f t else t) ts.

(** [WorkerBallBundle::new(participant, x, ..)] under the panel root. *)
Definition new_ball (id : Entity) (p : Participant) (side : PanelRootSide) (x : Q) : Ball :=
  {| ball_id := id; ball_owner := p; ball_parent := side;
     ball_x := x; ball_y := WORKER_BALL_SPAWN_Y; ball_vel := (0, 0) |}.

(** [WorkerBallTrailBundle::new(ball, target_x, color, effect)]. *)
Definition new_trail (id ball : Entity) (target_x : Q) (p : Participant) : Trail :=
  {| trail_id := id; trail_link := Active ball; trail_color := ColorOf p;
     trail_pos := (target_x, WORKER_BALL_SPAWN_Y) |}.

(** ** [spawn_workers] *)

Section Spawn.

Variable intersects : Q * Q -> bool.
(** [survivors: Res<ParticipantMap<bool>>] *)
Variable survivors : Participant -> bool.

(** The single-survivor arm: spawn the ball, then always spawn a new
    [WorkerBallTrailBundle]. *)
Definition spawn_single (side : PanelRootSide) (survivor : Participant)
  (w : World) (rng : list Q) : option (World * list Q) :=
  let root := root_translation side in
  let caster := {| root_position := root; dist := panel_dist |} in
  match caster_get intersects caster rng with
  | None => None
  | Some (x, rng') =>
      let (ball, w1) := fresh w in
      let w2 := set_balls (balls w1 ++ [new_ball ball survivor side x]) w1 in
      let (tr, w3) := fresh w2 in
      Some (set_trails (trails w3 ++ [new_trail tr ball (x + fst root) survivor]) w3,
            rng')
  end.

(** [setup_trail] of the paired arm: spawn the ball, then take the next
    entry of [trail_query_iter] (the idle trails tagged [want_left]) if
    there is one, else spawn a new trail. *)
Definition setup_trail (side : PanelRootSide) (participant : Participant) (x : Q)
  (w : World) (iter : list Entity) : World * list Entity :=
  let root := root_translation side in
  let (ball, w1) := fresh w in
  let w2 := set_balls (balls w1 ++ [new_ball ball participant side x]) w1 in
  match iter with
  | trail_entity :: iter' =>
      (set_trails
         (update_trail trail_entity
            (fun t => {| trail_id := trail_id t; trail_link := Active ball;
                         trail_color := ColorOf participant;
                         trail_pos := (x + fst root, WORKER_BALL_SPAWN_Y) |})
            (trails w2)) w2,
       iter')
  | [] =>
      let (tr, w3) := fresh w2 in
      (set_trails (trails w3 ++ [new_trail tr ball (x + fst root) participant]) w3,
       [])
  end.

(** The closure [f] for one panel.  [snapshot] is [trail_query] as the
    system sees it (commands are applied after the system). *)
Definition spawn_panel (snapshot : list Trail) (a b : Participant)
  (side : PanelRootSide) (want_left : bool) (w : World) (rng : list Q)
  : option (World * list Q) :=
  let caster := {| root_position := root_translation side; dist := panel_dist |} in
  match survivors a, survivors b with
  | false, false => Some (w, rng)
  | true, false => spawn_single side a w rng
  | false, true => spawn_single side b w rng
  | true, true =>
      match pair_draw intersects caster rng with
      | None => None
      | Some (xa, xb, rng') =>
          let iter := map trail_id (filter (is_inactive_side want_left) snapshot) in
          let (w1, iter1) := setup_trail side a xa w iter in
          let (w2, _) := setup_trail side b xb w1 iter1 in
          Some (w2, rng')
      end
  end.

(** The body of [spawn_workers], after its run condition. *)
Definition spawn_workers (delta : N) (w : World) (rng : list Q)
  : option (World * list Q) :=
  let sp := spawner w in
  let t := timer_tick delta (timer sp) in
  let w0 := set_spawner {| timer := t; counter := counter sp |} w in
  if negb (just_finished t) then Some (w0, rng)
  else
    let snapshot := trails w0 in
    match spawn_panel snapshot A B Left true w0 rng with
    | None => None
    | Some (w1, rng1) =>
        match spawn_panel snapshot C D Right false w1 rng1 with
        | None => None
        | Some (w2, rng2) =>
            let sp2 := spawner w2 in
            Some (set_spawner {| timer := timer sp2; counter := S (counter sp2) |} w2,
                  rng2)
        end
    end.

(** [spawn_workers.run_if(game_is_going.and_then(spawn_workers_condition))]. *)
Definition run_spawn_workers (game_is_going : bool) (delta : N) (w : World)
  (rng : list Q) : option (World * list Q) :=
  if game_is_going && spawn_workers_condition (spawner w)
  then spawn_workers delta w rng
  else Some (w, rng).

End Spawn.

(** ** [update_workers_particle_position] *)

(** The resting x of an idle trail. *)
Definition rest_x (go_left : bool) : Q :=
  if go_left then LEFT_ROOT_X else RIGHT_ROOT_X.

Definition park (go_left : bool) (t : Trail) : Trail :=
  {| trail_id := trail_id t; trail_link := Inactive go_left;
     trail_color := ColorNone;
     trail_pos := (rest_x go_left, WORKER_BALL_SPAWN_Y) |}.

(** The loop over [Query<(.., &WorkerBallTrail), &mut EffectProperties>],
    with [transform_query.get(ball_entity)].  The list is the query's
    iteration order in this run; the archetype moves of the parked trails
    ([insert(InactiveWorkerBallTrail)], [remove::<WorkerBallTrail>()]) are
    deferred commands, so nothing is reordered during the run.  They can
    reorder the later iterations of other systems' queries, so the pool
    order is not carried from one system run to another. *)
Fixpoint update_trails (w : World) (go_left : bool) (ts : list Trail)
  : list Trail * bool :=
  match ts with
  | [] => ([], go_left)
  | t :: ts' =>
      match trail_link t with
      | Inactive _ =>
          let (ts'', g) := update_trails w go_left ts' in (t :: ts'', g)
      | Active ball =>
          match transform_query w ball with
          | Some p =>
              let t' := {| trail_id := trail_id t; trail_link := trail_link t;
                           trail_color := trail_color t; trail_pos := p |} in
              let (ts'', g) := update_trails w go_left ts' in (t' :: ts'', g)
          | None =>
              let (ts'', g) := update_trails w (negb go_left) ts' in
              (park go_left t :: ts'', g)
          end
      end
  end.

Definition update_workers_particle_position (w : World) : World :=
  let (ts, g) := update_trails w (go_left w) (trails w) in
  set_go_left g (set_trails ts w).

(** ** [restart] *)

(** The loop over [Query<(&mut EffectProperties, &mut InactiveWorkerBallTrail)>]
    with the system's own [let mut go_left = false]. *)
Fixpoint restart_trails (go_left : bool) (ts : list Trail) : list Trail :=
  match ts with
  | [] => []
  | t :: ts' =>
      match trail_link t with
      | Inactive _ => park go_left t :: restart_trails (negb go_left) ts'
      | Active _ => t :: restart_trails go_left ts'
      end
  end.

Definition restart (phase : N) (w : World) : World :=
  let w1 := set_spawner (spawner_reset phase (spawner w)) w in
  let w2 := set_balls [] w1 in
  set_trails (restart_trails false (trails w2)) w2.

(** ** [ball_reset] *)

Section Recycle.

Variable intersects : Q * Q -> bool.

Definition reset_ball (e : Entity) (x : Q) (bs : list Ball) : list Ball :=
  map (fun b => if Nat.eqb (ball_id b) e
                then {| ball_id := ball_id b; ball_owner := ball_owner b;
                        ball_parent := ball_parent b; ball_x := x;
                        ball_y := WORKER_BALL_SPAWN_Y; ball_vel := (0, 0) |}
                else b) bs.

(** The body of the loop for one collision event. *)
Definition ball_reset_one (w : World) (rng : list Q) (ev : CollisionEvent)
  : option (World * list Q) :=
  match ev with
  | Started _ _ => Some (w, rng)
  | Stopped a b =>
      let ball_entity :=
        match zone_of w a with
        | Some _ => Some b
        | None => match zone_of w b with Some _ => Some a | None => None end
        end in
      match ball_entity with
      | None => Some (w, rng)
      | Some e =>
          match find_ball w e with
          | None => Some (w, rng)
          | Some ball =>
              let target_side := for_participant (ball_owner ball) in
              let caster := {| root_position := root_translation target_side;
                               dist := panel_dist |} in
              match caster_get intersects caster rng with
              | None => None
              | Some (x, rng') => Some (set_balls (reset_ball e x (balls w)) w, rng')
              end
          end
      end
  end.

Fixpoint ball_reset (w : World) (rng : list Q) (evs : list CollisionEvent)
  : option (World * list Q) :=
  match evs with
  | [] => Some (w, rng)
  | ev :: evs' =>
      match ball_reset_one w rng ev with
      | None => None
      | Some (w', rng') => ball_reset w' rng' evs'
      end
  end.

End Recycle.

(** ** Claim-side predicates *)

(** One entity of the contact resolves to a trigger zone of type [tt], the
    other to a worker ball owned by [p]. *)
Definition pairs_zone_ball (w : World) (a b : Entity) (tt : TriggerType)
  (p : Participant) : Prop :=
  (zone_of w a = Some tt /\ ball_query w b = Some p) \/
  (zone_of w b = Some tt /\ ball_query w a = Some p).

(** No entity is both a trigger zone and a worker ball:
    [TriggerZoneBundle] and [WorkerBallBundle] share no component. *)
Definition kinds_disjoint (w : World) : Prop :=
  forall e, zone_of w e = None \/ ball_query w e = None.

(** Successive [get] calls on one caster: [gets c rng xs rng'] when the
    calls, started on the stream [rng], return [xs] and leave [rng']. *)
Inductive gets (intersects : Q * Q -> bool) (c : WorkerBallShapeCaster)
  : list Q -> list Q -> list Q -> Prop :=
| gets_nil rng : gets intersects c rng [] rng
| gets_cons rng x rng1 xs rng2 :
    caster_get intersects c rng = Some (x, rng1) ->
    gets intersects c rng1 xs rng2 ->
    gets intersects c rng (x :: xs) rng2.

(** The draws of a list of rejected pairs, in order. *)
Definition pair_draws (ps : list (Q * Q)) : list Q :=
  flat_map (fun p => [fst p; snd p]) ps.

(** Raw generator draws lie in [[0, 1)]. *)
Definition raw_draw (u : Q) : Prop := 0 <= u /\ u < 1.

(** ** Concrete worlds *)

Definition timer_about_to_fire : Timer :=
  {| t_duration := WORKER_BALL_SPAWN_TIMER_NS; t_elapsed := 9000000000;
     t_finished := false; t_times_finished_this_tick := 0 |}.

(** A zone (entity 1, the middle zone of the left panel), a ball of [A] (entity 2), one idle trail tagged
    left (entity 0); the spawn timer one second before firing. *)
Definition demo_world : World :=
  {| zones := [(1%nat, Multiply 4)];
     statics := [(1%nat, (LEFT_ROOT_X, -250))];
     balls := [new_ball 2%nat A Left 0];
     trails := [ {| trail_id := 0%nat; trail_link := Inactive true;
                    trail_color := ColorNone;
                    trail_pos := (LEFT_ROOT_X, WORKER_BALL_SPAWN_Y) |} ];
     next_entity := 3%nat;
     spawner := {| timer := timer_about_to_fire; counter := 0%nat |};
     go_left := false |}.

Definition only_A (p : Participant) : bool :=
  match p with A => true | _ => false end.

Definition no_hit (_ : Q * Q) : bool := false.

(** The side tags of the idle trails, in pool order. *)
Definition idle_sides (ts : list Trail) : list bool :=
  flat_map (fun t => match trail_link t with Inactive s => [s] | Active _ => [] end) ts.

(** [g, !g, g, ...] of length [n]. *)
Fixpoint alternate (g : bool) (n : nat) : list bool :=
  match n with
  | O => []
  | S n' => g :: alternate (negb g) n'
  end.

Definition is_idle (t : Trail) : bool :=
  match trail_link t with Inactive _ => true | Active _ => false end.

(** [demo_world] where the pool holds one active trail (entity 0) following
    the live ball 2. *)
Definition active_world : World :=
  set_trails [ {| trail_id := 0%nat; trail_link := Active 2%nat;
                  trail_color := ColorOf A;
                  trail_pos := (LEFT_ROOT_X, WORKER_BALL_SPAWN_Y) |} ] demo_world.

Definition demo_phase : N := 8000000000.

(** [demo_world] with the spawn-round counter at the cap. *)
Definition capped_world : World :=
  set_spawner {| timer := timer_about_to_fire; counter := WORKER_BALL_COUNT_MAX |}
    demo_world.

(** Two active trails: trail 0 follows ball 3, already despawned, and
    trail 4 follows the live ball 2. *)
Definition toggle_world : World :=
  {| zones := zones demo_world; statics := statics demo_world;
     balls := balls demo_world;
     trails := [ {| trail_id := 0%nat; trail_link := Active 3%nat;
                    trail_color := ColorOf A;
                    trail_pos := (LEFT_ROOT_X, WORKER_BALL_SPAWN_Y) |};
                 {| trail_id := 4%nat; trail_link := Active 2%nat;
                    trail_color := ColorOf A;
                    trail_pos := (LEFT_ROOT_X, WORKER_BALL_SPAWN_Y) |} ];
     next_entity := 5%nat; spawner := spawner demo_world;
     go_left := false |}.

(** How many participants are alive. *)
Definition alive_count (survivors : Participant -> bool) : nat :=
  length (filter survivors [A; B; C; D]).

(** ** Helpers for the further properties *)

Definition count_started (evs : list CollisionEvent) : nat :=
  length (filter (fun ev => match ev with Started _ _ => true | Stopped _ _ => false end) evs).

(** Every ball hangs under the panel root of its owner's side. *)
Definition parents_ok (bs : list Ball) : Prop :=
  Forall (fun b => ball_parent b = for_participant (ball_owner b)) bs.

(** An active trail whose ball no longer resolves. *)
Definition dead_linked (w : World) (t : Trail) : bool :=
  match trail_link t with
  | Active e => match transform_query w e with Some _ => false | None => true end
  | Inactive _ => false
  end.

(** Every active trail follows a worker ball, live or despawned: its link
    names no trail and no static entity.  [spawn_workers] only links a
    trail to the ball it spawns with it, and Bevy never hands a despawned
    entity out again. *)
Definition links_to_balls (w : World) : Prop :=
  Forall (fun t => match trail_link t with
                   | Active e => static_transform w e = None
                   | Inactive _ => True
                   end) (trails w).

(** [links_to_balls] with the bookkeeping that keeps it: the trails, the
    entities they follow and the static entities all come before the next
    free entity. *)
Definition links_ok (w : World) : Prop :=
  links_to_balls w /\
  Forall (fun t => (trail_id t < next_entity w)%nat /\
                   match trail_link t with
                   | Active e => (e < next_entity w)%nat
                   | Inactive _ => True
                   end) (trails w) /\
  Forall (fun s => (fst s < next_entity w)%nat) (statics w).

(** The side tags given by [update_trails] to the trails that went idle. *)
Definition new_idle_tags (w : World) (ts ts' : list Trail) : list bool :=
  flat_map (fun tt' => if dead_linked w (fst tt')
                       then match trail_link (snd tt') with
                            | Inactive s => [s] | Active _ => [] end
                       else []) (combine ts ts').

(** The identity of a ball: entity, owner and parent panel. *)
Definition ball_ident (b : Ball) : Entity * Participant * PanelRootSide :=
  (ball_id b, ball_owner b, ball_parent b).

(** A ball as [WorkerBallBundle::new] places it for participant [p] under the
    root of [side]. *)
Definition placed (side : PanelRootSide) (p : Participant) (b : Ball) : Prop :=
  ball_owner b = p /\ ball_parent b = side /\ ball_y b = WORKER_BALL_SPAWN_Y /\
  ball_vel b = (0, 0) /\ in_panel_span (ball_x b) = true.

(** ** [AutoTimer] and [auto_elimination] (src/src/debug_utils.rs) *)

(** [Timer::tick] for an unpaused timer in [TimerMode::Once]: a finished
    timer only clears its completion count; otherwise the elapsed time
    grows and is clamped to the duration once reached. *)
Definition timer_tick_once (delta : N) (t : Timer) : Timer :=
  if t_finished t then
    {| t_duration := t_duration t; t_elapsed := t_elapsed t; t_finished := true;
       t_times_finished_this_tick := 0 |}
  else
    let elapsed := (t_elapsed t + delta)%N in
    if N.leb (t_duration t) elapsed then
      {| t_duration := t_duration t; t_elapsed := t_duration t; t_finished := true;
         t_times_finished_this_tick := 1 |}
    else
      {| t_duration := t_duration t; t_elapsed := elapsed; t_finished := false;
         t_times_finished_this_tick := 0 |}.

(** [AutoTimer::default]: [Timer::from_seconds(10.0, TimerMode::Once)]. *)
Definition AUTO_TIMER_NS : N := 10000000000.
Definition auto_timer_default : Timer := timer_from_ns AUTO_TIMER_NS.

(** One run of [auto_elimination]: the participants of the
    [EliminationEvent]s it sends. *)
Definition auto_elimination (delta : N) (t : Timer) : Timer * list Participant :=
  let t' := timer_tick_once delta t in
  (t', if just_finished t' then [A; B; C] else []).

(** The events sent over successive frames with the given [time.delta()]. *)
Fixpoint run_auto_elimination (t : Timer) (deltas : list N) : list Participant :=
  match deltas with
  | [] => []
  | d :: ds => let (t', out) := auto_elimination d t in out ++ run_auto_elimination t' ds
  end.

Definition total_delta (deltas : list N) : N := fold_right N.add 0%N deltas.

(** ** Colour packing of [auto_hanabi]

    [(c * 255.0) as u32] truncates towards zero and saturates to the [u32]
    range; [<<] on [u32] drops the bits shifted past bit 31.  The product
    [c * 255.0] is taken exactly. *)
Definition as_u32 (q : Q) : Z := Z.max 0 (Z.min (Z.ones 32) (Qfloor q)).

Definition shl_u32 (x n : Z) : Z := Z.land (Z.shiftl x n) (Z.ones 32).

Definition pack_color (red green blue : Q) : Z :=
  Z.lor (Z.lor (Z.lor 4278190080%Z (shl_u32 (as_u32 (blue * 255)) 16))
               (shl_u32 (as_u32 (green * 255)) 8))
        (as_u32 (red * 255)).

(** Byte [k] (from the least significant) of a packed colour. *)
Definition byte_at (x k : Z) : Z := Z.land (Z.shiftr x (8 * k)) 255.

(** ** [ObstacleBundleBuilder] *)

Record CollisionGroups := {
  memberships : Z;
  filters : Z;
}.

(** [InteractionGroups::test] of rapier. *)
Definition interacts (g1 g2 : CollisionGroups) : bool :=
  negb (Z.eqb (Z.land (memberships g1) (filters g2)) 0) &&
  negb (Z.eqb (Z.land (memberships g2) (filters g1)) 0).

Inductive RigidBody := Fixed | Dynamic.

Definition CIRCLE_Z : Q := -1.
Definition TRIGGER_ZONE_DIVIDER_Z : Q := -1.

Section Obstacles.

(** The asset handles and the collider shape are opaque to the builder. *)
Variables ColorMaterial Mesh2dHandle Collider Name : Type.
Variables PANEL_BALLS PANEL_OBSTACLES : Z.

Record ObstacleBundleBuilder := {
  translation : Q * Q * Q;
  material : option ColorMaterial;
  mesh : option Mesh2dHandle;
  collider : option Collider;
  name : option Name;
}.

Record ObstacleBundle := {
  ob_mesh : Mesh2dHandle;
  ob_material : ColorMaterial;
  ob_transform : Q * Q * Q;
  ob_collider : Collider;
  ob_collision_groups : CollisionGroups;
  ob_rigidbody : RigidBody;
  ob_name : Name;
}.

(** [ObstacleBundleBuilder::new()], i.e. [Default::default()]. *)
Definition builder_new : ObstacleBundleBuilder :=
  {| translation := (0, 0, 0); material := None; mesh := None;
     collider := None; name := None |}.

Definition builder_xy (x y : Q) (b : ObstacleBundleBuilder) : ObstacleBundleBuilder :=
  {| translation := (x, y, snd (translation b)); material := material b;
     mesh := mesh b; collider := collider b; name := name b |}.
Definition builder_z (z : Q) (b : ObstacleBundleBuilder) : ObstacleBundleBuilder :=
  {| translation := (fst (translation b), z); material := material b;
     mesh := mesh b; collider := collider b; name := name b |}.
Definition builder_material (m : ColorMaterial) (b : ObstacleBundleBuilder)
  : ObstacleBundleBuilder :=
  {| translation := translation b; material := Some m;
     mesh := mesh b; collider := collider b; name := name b |}.
Definition builder_mesh (m : Mesh2dHandle) (b : ObstacleBundleBuilder)
  : ObstacleBundleBuilder :=
  {| translation := translation b; material := material b;
     mesh := Some m; collider := collider b; name := name b |}.
Definition builder_collider (c : Collider) (b : ObstacleBundleBuilder)
  : ObstacleBundleBuilder :=
  {| translation := translation b; material := material b;
     mesh := mesh b; collider := Some c; name := name b |}.
Definition builder_name (n : Name) (b : ObstacleBundleBuilder) : ObstacleBundleBuilder :=
  {| translation := translation b; material := material b;
     mesh := mesh b; collider := collider b; name := Some n |}.

(** [ObstacleBundleBuilder::build]: [None] unless every optional part is set. *)
Definition build (b : ObstacleBundleBuilder) : option ObstacleBundle :=
  match b with
  | {| translation := (x, y, z); material := Some m; mesh := Some me;
       collider := Some c; name := Some n |} =>
      Some {| ob_mesh := me; ob_material := m; ob_transform := (x, y, z);
              ob_collider := c;
              ob_collision_groups := {| memberships := PANEL_OBSTACLES;
                                        filters := PANEL_BALLS |};
              ob_rigidbody := Fixed; ob_name := n |}
  | _ => None
  end.

(** [circle_builder] and [divider_builder] of [setup]. *)
Definition circle_builder (n : Name) (m : ColorMaterial) (me : Mesh2dHandle)
  (c : Collider) : ObstacleBundleBuilder :=
  builder_collider c (builder_mesh me (builder_material m
    (builder_z CIRCLE_Z (builder_name n builder_new)))).
Definition divider_builder (n : Name) (m : ColorMaterial) (me : Mesh2dHandle)
  (c : Collider) : ObstacleBundleBuilder :=
  builder_collider c (builder_mesh me (builder_material m
    (builder_z TRIGGER_ZONE_DIVIDER_Z (builder_name n builder_new)))).

End Obstacles.

Arguments builder_new {ColorMaterial Mesh2dHandle Collider Name}.
Arguments builder_xy {ColorMaterial Mesh2dHandle Collider Name} x y b.
Arguments builder_z {ColorMaterial Mesh2dHandle Collider Name} z b.
Arguments builder_material {ColorMaterial Mesh2dHandle Collider Name} m b.
Arguments builder_mesh {ColorMaterial Mesh2dHandle Collider Name} m b.
Arguments builder_collider {ColorMaterial Mesh2dHandle Collider Name} c b.
Arguments builder_name {ColorMaterial Mesh2dHandle Collider Name} n b.
Arguments build {ColorMaterial Mesh2dHandle Collider Name} PANEL_BALLS PANEL_OBSTACLES b.
Arguments circle_builder {ColorMaterial Mesh2dHandle Collider Name} n m me c.
Arguments divider_builder {ColorMaterial Mesh2dHandle Collider Name} n m me c.
Arguments translation {ColorMaterial Mesh2dHandle Collider Name} _.
Arguments material {ColorMaterial Mesh2dHandle Collider Name} _.
Arguments mesh {ColorMaterial Mesh2dHandle Collider Name} _.
Arguments collider {ColorMaterial Mesh2dHandle Collider Name} _.
Arguments name {ColorMaterial Mesh2dHandle Collider Name} _.
Arguments ob_mesh {ColorMaterial Mesh2dHandle Collider Name} _.
Arguments ob_material {ColorMaterial Mesh2dHandle Collider Name} _.
Arguments ob_transform {ColorMaterial Mesh2dHandle Collider Name} _.
Arguments ob_collider {ColorMaterial Mesh2dHandle Collider Name} _.
Arguments ob_collision_groups {ColorMaterial Mesh2dHandle Collider Name} _.
Arguments ob_rigidbody {ColorMaterial Mesh2dHandle Collider Name} _.
Arguments ob_name {ColorMaterial Mesh2dHandle Collider Name} _.

(** ** Collision groups of the panel bodies *)

Inductive Body := WorkerBallBody | ObstacleBody | PanelRootBody | TriggerZoneBody.

Section Groups.

(** The group bits of [collision_groups] (a module outside src/). *)
Variables PANEL_BALLS PANEL_OBSTACLES PANEL_TRIGGER_ZONES : Z.

(** The [CollisionGroups] each bundle of the panel carries:
    [WorkerBallBundle::new], [ObstacleBundleBuilder::build], the panel roots
    of [setup] and [TriggerZoneBundle::new]. *)
Definition body_groups (k : Body) : CollisionGroups :=
  match k with
  | WorkerBallBody =>
      {| memberships := PANEL_BALLS;
         filters := Z.lor (Z.lor PANEL_BALLS PANEL_OBSTACLES) PANEL_TRIGGER_ZONES |}
  | ObstacleBody | PanelRootBody =>
      {| memberships := PANEL_OBSTACLES; filters := PANEL_BALLS |}
  | TriggerZoneBody =>
      {| memberships := PANEL_TRIGGER_ZONES; filters := PANEL_BALLS |}
  end.

Definition is_worker_ball (k : Body) : bool :=
  match k with WorkerBallBody => true | _ => false end.

(** The groups of the [QueryFilter] in [WorkerBallShapeCaster::get]. *)
Definition caster_filter_groups : CollisionGroups :=
  {| memberships := PANEL_BALLS; filters := PANEL_BALLS |}.

End Groups.

(** ** [TriggerType]'s [Display] *)

Module Labels.
Import Ascii Strings.String.
Local Open Scope string_scope.

Definition nl : string := String (ascii_of_nat 10) EmptyString.

(** The decimal digits of [n], as [{}] prints an integer. *)
Fixpoint decimal_aux (fuel n : nat) (acc : string) : string :=
  match fuel with
  | O => acc
  | S fuel' =>
      let acc' := String (ascii_of_nat (48 + Nat.modulo n 10)%nat) acc in
      if Nat.ltb n 10 then acc' else decimal_aux fuel' (Nat.div n 10) acc'
  end.

Definition decimal (n : nat) : string := decimal_aux (S n) n "".

Definition trigger_label (t : TriggerType) : string :=
  match t with
  | Multiply factor => "x" ++ decimal factor
  | BurstShot => "Release" ++ nl ++ "Burst" ++ nl ++ "Shots"
  | ChargedShot => "Release" ++ nl ++ "Changed" ++ nl ++ "Shots"
  end.

(** Reading decimal digits back, and the check that it inverts [decimal]
    below [n]. *)
Fixpoint read_decimal (s : string) (acc : nat) : nat :=
  match s with
  | EmptyString => acc
  | String c s' => read_decimal s' (acc * 10 + (nat_of_ascii c - 48))%nat
  end.

Definition decimal_roundtrip_below (n : nat) : bool :=
  forallb (fun i => Nat.eqb (read_decimal (decimal i) 0) i) (seq 0 n).

End Labels.

(** [Multiply] carries a [u8]. *)
Definition factor_fits (t : TriggerType) : Prop :=
  match t with Multiply factor => (factor < 256)%nat | _ => True end.

(** ** Layout of a panel in [setup] *)

Definition Q_of_nat (n : nat) : Q := inject_Z (Z.of_nat n).

Definition ARENA_HEIGHT : Q := 700.
Definition ARENA_HEIGHT_FRAC_2 : Q := ARENA_HEIGHT / 2.
Definition ARENA_WIDTH_FRAC_5 : Q := ARENA_WIDTH / 5.
Definition ARENA_WIDTH_FRAC_10 : Q := ARENA_WIDTH / 10.
Definition TRIGGER_ZONE_Y : Q := -250.
Definition TRIGGER_ZONE_HEIGHT : Q := 40.
Definition CIRCLE_RADIUS : Q := 10.
Definition CIRCLE_PYRAMID_VERTICAL_OFFSET : Q := 250.
Definition CIRCLE_PYRAMID_VERTICAL_COUNT : nat := 5.
Definition CIRCLE_PYRAMID_VERTICAL_GAP : Q := 8.
Definition CIRCLE_PYRAMID_HORIZONTAL_GAP : Q := 45.
Definition CIRCLE_GRID_VERTICAL_OFFSET : Q := 70.
Definition CIRCLE_GRID_VERTICAL_COUNT : nat := 8.
Definition CIRCLE_GRID_VERTICAL_GAP : Q := 15.
Definition CIRCLE_GRID_HORIZONTAL_GAP : Q := 28.
Definition CIRCLE_GRID_HORIZONTAL_HALF_COUNT_EVEN_ROW : nat := 2.
Definition CIRCLE_GRID_HORIZONTAL_HALF_COUNT_ODD_ROW : nat := 3.
Definition CIRCLE_HALF_GAP : Q := CIRCLE_PYRAMID_HORIZONTAL_GAP / 2.
Definition CIRCLE_DIAMETER : Q := CIRCLE_RADIUS * 2.

(** Row [i] of the pyramid: the centres of its circle obstacles, in spawn
    order. *)
Definition pyramid_row (i : nat) : list (Q * Q) :=
  let y := - Q_of_nat i * (CIRCLE_DIAMETER + CIRCLE_PYRAMID_VERTICAL_GAP)
           + CIRCLE_PYRAMID_VERTICAL_OFFSET in
  if Nat.even i then
    (0, y) :: flat_map (fun j =>
      let x := Q_of_nat j * (CIRCLE_DIAMETER + CIRCLE_PYRAMID_HORIZONTAL_GAP) in
      [(x, y); (- x, y)]) (seq 1 (Nat.div i 2))
  else
    let x0 := CIRCLE_HALF_GAP + CIRCLE_RADIUS in
    (x0, y) :: (- x0, y) :: flat_map (fun j =>
      let x := Q_of_nat j * (CIRCLE_DIAMETER + CIRCLE_PYRAMID_HORIZONTAL_GAP) + x0 in
      [(x, y); (- x, y)]) (seq 1 (Nat.div i 2)).

(** Row [i] of the grid below it. *)
Definition grid_row (i : nat) : list (Q * Q) :=
  let y := - Q_of_nat i * (CIRCLE_DIAMETER + CIRCLE_GRID_VERTICAL_GAP)
           + CIRCLE_GRID_VERTICAL_OFFSET in
  if Nat.even i then
    (0, y) :: flat_map (fun j =>
      let x := Q_of_nat j * (CIRCLE_DIAMETER + CIRCLE_GRID_HORIZONTAL_GAP) in
      [(x, y); (- x, y)]) (seq 1 CIRCLE_GRID_HORIZONTAL_HALF_COUNT_EVEN_ROW)
  else
    let x0 := CIRCLE_HALF_GAP + CIRCLE_RADIUS in
    (x0, y) :: (- x0, y) :: flat_map (fun j =>
      let x := Q_of_nat j * (CIRCLE_DIAMETER + CIRCLE_GRID_HORIZONTAL_GAP) + x0 in
      [(x, y); (- x, y)]) (seq 1 (CIRCLE_GRID_HORIZONTAL_HALF_COUNT_ODD_ROW - 1)).

(** All circle obstacles of one panel, relative to its root. *)
Definition circle_layout : list (Q * Q) :=
  flat_map pyramid_row (seq 0 CIRCLE_PYRAMID_VERTICAL_COUNT) ++
  flat_map grid_row (seq 0 CIRCLE_GRID_VERTICAL_COUNT).

Definition dist2 (p q : Q * Q) : Q :=
  (fst p - fst q) * (fst p - fst q) + (snd p - snd q) * (snd p - snd q).

(** [f] holds of every pair of entries, the first one earlier in the list. *)
Fixpoint pairwise {X : Type} (f : X -> X -> bool) (l : list X) : bool :=
  match l with
  | [] => true
  | p :: l' => forallb (f p) l' && pairwise f l'
  end.

(** The trigger zones of one panel (type and centre x), in spawn order; each
    is [ARENA_WIDTH_FRAC_5] wide. *)
Definition trigger_zone_layout : list (TriggerType * Q) :=
  [(Multiply 4, 0); (Multiply 2, - ARENA_WIDTH_FRAC_5); (Multiply 2, ARENA_WIDTH_FRAC_5);
   (BurstShot, -2 * ARENA_WIDTH_FRAC_5); (ChargedShot, 2 * ARENA_WIDTH_FRAC_5)].

(** The x of the four trigger-zone dividers. *)
Definition divider_xs : list Q :=
  [- ARENA_WIDTH_FRAC_10; - ARENA_WIDTH_FRAC_5 - ARENA_WIDTH_FRAC_10;
   ARENA_WIDTH_FRAC_10; ARENA_WIDTH_FRAC_5 + ARENA_WIDTH_FRAC_10].

(** * Theorems *)

(** ** Trigger translator *)

Lemma trigger_event_no_restart (zq : Entity -> option TriggerType)
  (bq : Entity -> option Participant) (evs : list CollisionEvent) :
  trigger_event zq bq 0 evs = flat_map (trigger_event_one zq bq) evs.
Proof. reflexivity. Qed.

Lemma trigger_event_one_pair (w : World) (a b : Entity) tt p :
  kinds_disjoint w -> pairs_zone_ball w a b tt p ->
  trigger_event_one (zone_of w) (ball_query w) (Started a b) =
  [ {| te_participant := p; te_trigger_type := tt |} ].
Proof.
  intros Hd [[Ha Hb] | [Hb Ha]]; simpl.
  - rewrite Ha. destruct (Hd a) as [H | H]; [congruence |]. now rewrite H, Hb.
  - destruct (Hd a) as [H | H]; [| congruence]. now rewrite H, Hb, Ha.
Qed.

Lemma trigger_event_one_other (w : World) (a b : Entity) :
  kinds_disjoint w -> (forall tt p, ~ pairs_zone_ball w a b tt p) ->
  trigger_event_one (zone_of w) (ball_query w) (Started a b) = [].
Proof.
  intros Hd Hn; unfold pairs_zone_ball in Hn; simpl.
  destruct (zone_of w a) as [tt |] eqn:Ha.
  - destruct (Hd a) as [H | H]; [congruence |]. rewrite H.
    destruct (ball_query w b) as [p |] eqn:Hb; [| reflexivity].
    exfalso; apply (Hn tt p); auto.
  - destruct (zone_of w b) as [tt |] eqn:Hb; [| reflexivity].
    destruct (ball_query w a) as [p |] eqn:Hpa.
    + exfalso; apply (Hn tt p); auto.
    + destruct (Hd b) as [H | H]; [congruence |]. now rewrite H.
Qed.

(** C1: with no restart signal in the tick, each contact-begin event pairing
    a trigger zone (type [tt]) with a worker ball (owner [p]) yields exactly
    the one trigger event [{p, tt}]; any other contact-begin event and every
    contact-end event yields nothing; and a batch of N pairing events yields
    exactly their N events, in order. *)
Theorem trigger_event_exact (w : World) :
  kinds_disjoint w ->
  (forall a b tt p, pairs_zone_ball w a b tt p ->
     trigger_event_one (zone_of w) (ball_query w) (Started a b) =
     [ {| te_participant := p; te_trigger_type := tt |} ]) /\
  (forall a b, (forall tt p, ~ pairs_zone_ball w a b tt p) ->
     trigger_event_one (zone_of w) (ball_query w) (Started a b) = []) /\
  (forall a b, trigger_event_one (zone_of w) (ball_query w) (Stopped a b) = []) /\
  (forall evs, trigger_event (zone_of w) (ball_query w) 0 evs =
               flat_map (trigger_event_one (zone_of w) (ball_query w)) evs) /\
  (forall evs out,
     Forall2 (fun ev o => exists a b, ev = Started a b /\
                pairs_zone_ball w a b (te_trigger_type o) (te_participant o))
             evs out ->
     trigger_event (zone_of w) (ball_query w) 0 evs = out).
Proof.
  intros Hd; refine (conj _ (conj _ (conj _ (conj _ _)))).
  - intros; now apply trigger_event_one_pair.
  - intros; now apply trigger_event_one_other.
  - reflexivity.
  - intros; apply trigger_event_no_restart.
  - intros evs out H; rewrite trigger_event_no_restart.
    induction H as [| ev o evs out [a [b [-> Hp]]] _ IH]; [reflexivity |].
    cbn [flat_map]; rewrite (trigger_event_one_pair w a b _ _ Hd Hp), IH.
    destruct o; reflexivity.
Qed.

(** C2: when at least one restart signal is present in the tick, the whole
    pending batch of collision events is discarded and no trigger event is
    emitted, whatever the number of pending events. *)
Theorem trigger_event_restart_discards (zq : Entity -> option TriggerType)
  (bq : Entity -> option Participant) (restart_events : nat)
  (evs : list CollisionEvent) :
  (1 <= restart_events)%nat -> trigger_event zq bq restart_events evs = [].
Proof.
  intros H; unfold trigger_event.
  destruct restart_events; [lia | reflexivity].
Qed.

(** ** Trail pool on spawn *)

(** C3 (evaluation at the failing input): on the left panel with [A] alive
    and [B] dead, one idle trail tagged left (entity 0) in the pool, a
    firing spawn tick spawns one ball (entity 3) for [A] and allocates a new
    trail (entity 4) for it; the idle left trail stays idle and unused. *)
Theorem spawn_single_allocates_despite_idle :
  match spawn_workers no_hit only_A 1000000000 demo_world [1 # 2] with
  | Some (w', _) =>
      map trail_link (trails w') = [Inactive true; Active 3%nat] /\
      length (trails w') = S (length (trails demo_world)) /\
      map ball_owner (balls w') = [A; A]
  | None => False
  end.
Proof. vm_compute. auto. Qed.

Definition only_A_B (p : Participant) : bool :=
  match p with A | B => true | _ => false end.

(** The paired arm, on the same pool, does reuse the idle left trail for
    the first of its two balls. *)
Lemma spawn_pair_reuses_idle :
  match spawn_workers no_hit only_A_B 1000000000 demo_world [1 # 4; 3 # 4] with
  | Some (w', _) =>
      map trail_link (trails w') = [Active 3%nat; Active 4%nat] /\
      map trail_id (trails w') = [0%nat; 5%nat]
  | None => False
  end.
Proof. vm_compute. auto. Qed.

(** ** The placement oracle *)

Lemma caster_get_first (intersects : Q * Q -> bool) (c : WorkerBallShapeCaster)
  (rng : list Q) (x : Q) (rng' : list Q) :
  caster_get intersects c rng = Some (x, rng') ->
  exists pre u,
    rng = pre ++ u :: rng' /\ x = uniform_sample (dist c) u /\
    intersects (x + fst (root_position c),
                WORKER_BALL_SPAWN_Y + snd (root_position c)) = false /\
    Forall (fun u' => intersects (uniform_sample (dist c) u' + fst (root_position c),
                                  WORKER_BALL_SPAWN_Y + snd (root_position c)) = true)
           pre.
Proof.
  revert x rng'; induction rng as [| u rng IH]; intros x rng' H; [discriminate |].
  simpl in H.
  destruct (intersects _) eqn:Hi.
  - destruct (IH _ _ H) as (pre & u' & -> & Hx & Hno & Hpre).
    exists (u :: pre), u'; repeat split; auto.
  - injection H as <- <-. exists [], u; repeat split; auto.
Qed.

Lemma panel_sample_in_span (u : Q) :
  raw_draw u -> in_panel_span (uniform_sample panel_dist u) = true.
Proof.
  intros [H0 H1]; unfold in_panel_span, Qlt_bool, uniform_sample, panel_dist,
    ARENA_WIDTH_FRAC_2; simpl u_low; simpl u_high.
  apply andb_true_intro; split.
  - apply Qle_bool_iff; lra.
  - apply negb_true_iff, not_true_iff_false; rewrite Qle_bool_iff; lra.
Qed.

(** C4: the oracle of a panel ([Uniform::new(-ARENA_WIDTH_FRAC_2,
    ARENA_WIDTH_FRAC_2)] at the panel's root, as both the spawner and the
    recycler build it) returns the first draw of the generator whose
    ball-sized shape centred at [(root.x + x, spawn_height + root.y)] hits
    no dynamic worker ball: every earlier draw hit one, the returned one
    hits none, and it lies in the panel's horizontal span. *)
Theorem placement_oracle_first_free (intersects : Q * Q -> bool)
  (side : PanelRootSide) (rng : list Q) (x : Q) (rng' : list Q) :
  Forall raw_draw rng ->
  caster_get intersects {| root_position := root_translation side;
                           dist := panel_dist |} rng = Some (x, rng') ->
  exists pre u,
    rng = pre ++ u :: rng' /\ x = uniform_sample panel_dist u /\
    Forall (fun u' =>
      intersects (uniform_sample panel_dist u' + fst (root_translation side),
                  WORKER_BALL_SPAWN_Y + snd (root_translation side)) = true) pre /\
    intersects (x + fst (root_translation side),
                WORKER_BALL_SPAWN_Y + snd (root_translation side)) = false /\
    in_panel_span x = true.
Proof.
  intros Hr H.
  destruct (caster_get_first _ _ _ _ _ H) as (pre & u & Hrng & Hx & Hno & Hpre).
  simpl in Hx, Hno, Hpre.
  exists pre, u; repeat split; auto.
  subst x rng; apply panel_sample_in_span.
  apply Forall_app in Hr as [_ Hr]; now inversion Hr.
Qed.

(** ** Paired placement *)

Lemma pair_loop_pairs (intersects : Q * Q -> bool) (c : WorkerBallShapeCaster)
  (fuel : nat) (rng : list Q) (xa xb : Q) (rng' : list Q) :
  pair_loop intersects c fuel rng = Some (xa, xb, rng') ->
  exists fails,
    gets intersects c rng (pair_draws fails ++ [xa; xb]) rng' /\
    Forall (fun p => Qlt_bool WORKER_BALL_DIAMETER (Qabs (fst p - snd p)) = false)
           fails /\
    Qlt_bool WORKER_BALL_DIAMETER (Qabs (xa - xb)) = true.
Proof.
  revert rng; induction fuel as [| fuel IH]; intros rng H; [discriminate |].
  cbn [pair_loop] in H.
  destruct (caster_get intersects c rng) as [[ya rng1] |] eqn:H1; [| discriminate].
  destruct (caster_get intersects c rng1) as [[yb rng2] |] eqn:H2; [| discriminate].
  destruct (Qlt_bool WORKER_BALL_DIAMETER (Qabs (ya - yb))) eqn:Hd.
  - injection H as <- <- <-. exists []; simpl; repeat split; auto.
    econstructor; [exact H1 |]. econstructor; [exact H2 |]. constructor.
  - destruct (IH _ H) as (fails & Hg & Hf & Hok).
    exists ((ya, yb) :: fails); repeat split; auto.
    simpl. econstructor; [exact H1 |]. econstructor; [exact H2 |]. exact Hg.
Qed.

(** C5: when both participants of a panel are alive, the two x-coordinates
    are the two draws of one iteration of the pair loop: the successive
    oracle results are a sequence of rejected pairs followed by the accepted
    pair [(xa, xb)]; each rejected pair is discarded whole (both draws are
    replaced by the next two oracle results), and the accepted pair differs
    by more (hence at least) one ball diameter. *)
Theorem paired_draw_rejects_whole_pairs (intersects : Q * Q -> bool)
  (side : PanelRootSide) (rng : list Q) (xa xb : Q) (rng' : list Q) :
  let caster := {| root_position := root_translation side; dist := panel_dist |} in
  pair_draw intersects caster rng = Some (xa, xb, rng') ->
  exists fails,
    gets intersects caster rng (pair_draws fails ++ [xa; xb]) rng' /\
    Forall (fun p => ~ WORKER_BALL_DIAMETER < Qabs (fst p - snd p)) fails /\
    WORKER_BALL_DIAMETER < Qabs (xa - xb) /\
    WORKER_BALL_DIAMETER <= Qabs (xa - xb).
Proof.
  intros caster H.
  destruct (pair_loop_pairs _ _ _ _ _ _ _ H) as (fails & Hg & Hf & Hok).
  unfold Qlt_bool in Hok; apply negb_true_iff, not_true_iff_false in Hok.
  rewrite Qle_bool_iff in Hok; apply Qnot_le_lt in Hok.
  exists fails; repeat split; auto.
  - eapply Forall_impl; [| exact Hf]; intros [a b] Hab; simpl in *.
    unfold Qlt_bool in Hab; apply negb_false_iff in Hab.
    rewrite Qle_bool_iff in Hab; now apply Qle_not_lt.
  - now apply Qlt_le_weak.
Qed.

(** ** Zone-exit recycling *)

Definition recycled (b : Ball) (x : Q) : Ball :=
  {| ball_id := ball_id b; ball_owner := ball_owner b; ball_parent := ball_parent b;
     ball_x := x; ball_y := WORKER_BALL_SPAWN_Y; ball_vel := (0, 0) |}.

Lemma find_reset_ball_same (e : Entity) (x : Q) (bs : list Ball) (b : Ball) :
  find (fun b => Nat.eqb (ball_id b) e) bs = Some b ->
  find (fun b => Nat.eqb (ball_id b) e) (reset_ball e x bs) = Some (recycled b x).
Proof.
  induction bs as [| b' bs IH]; simpl; [discriminate |].
  destruct (Nat.eqb (ball_id b') e) eqn:He; simpl.
  - rewrite He; intros H; injection H as <-; reflexivity.
  - rewrite He; exact IH.
Qed.

Lemma find_reset_ball_other (e e' : Entity) (x : Q) (bs : list Ball) :
  e' <> e ->
  find (fun b => Nat.eqb (ball_id b) e') (reset_ball e x bs) =
  find (fun b => Nat.eqb (ball_id b) e') bs.
Proof.
  intros Hne; induction bs as [| b' bs IH]; simpl; [reflexivity |].
  destruct (Nat.eqb (ball_id b') e) eqn:He; simpl.
  - apply Nat.eqb_eq in He. destruct (Nat.eqb (ball_id b') e') eqn:He'.
    + apply Nat.eqb_eq in He'; congruence.
    + exact IH.
  - destruct (Nat.eqb (ball_id b') e'); [reflexivity | exact IH].
Qed.

Lemma find_ball_id (w : World) (e : Entity) (b : Ball) :
  find_ball w e = Some b -> ball_id b = e.
Proof.
  unfold find_ball; intros H; apply find_some in H as [_ H].
  now apply Nat.eqb_eq.
Qed.

Lemma ball_query_find (w : World) (e : Entity) (b : Ball) :
  find_ball w e = Some b -> ball_query w e <> None.
Proof. unfold ball_query; intros ->; discriminate. Qed.

(** The entity [ball_reset] takes as the ball for a zone/ball contact. *)
Lemma recycler_ball_entity (w : World) (a b : Entity) (ball : Ball) :
  kinds_disjoint w ->
  (zone_of w a <> None /\ find_ball w b = Some ball) \/
  (zone_of w b <> None /\ find_ball w a = Some ball) ->
  exists e, find_ball w e = Some ball /\
    match zone_of w a with
    | Some _ => Some b
    | None => match zone_of w b with Some _ => Some a | None => None end
    end = Some e.
Proof.
  intros Hd [[Ha Hb] | [Hb Ha]].
  - exists b; split; [exact Hb |]. destruct (zone_of w a); [reflexivity | congruence].
  - exists a; split; [exact Ha |].
    destruct (Hd a) as [H | H]; [| exfalso; exact (ball_query_find _ _ _ Ha H)].
    rewrite H. destruct (zone_of w b); [reflexivity | congruence].
Qed.

(** C6: for a contact-end event between a trigger zone and a worker ball
    [ball], the recycler draws [x] from the oracle of the panel of the
    ball's owner ([for_participant]); the ball is then at local position
    [(x, spawn_height)], within the panel's horizontal span, with velocity
    [(0, 0)], at a point where the oracle's query found no other ball, and
    every other ball is unchanged.  A contact-end event that is not such a
    pairing leaves the world unchanged. *)
Theorem zone_exit_recycles (intersects : Q * Q -> bool) (w : World) (rng : list Q) :
  kinds_disjoint w -> Forall raw_draw rng ->
  (forall a b ball w' rng',
     (zone_of w a <> None /\ find_ball w b = Some ball) \/
     (zone_of w b <> None /\ find_ball w a = Some ball) ->
     ball_reset_one intersects w rng (Stopped a b) = Some (w', rng') ->
     let side := for_participant (ball_owner ball) in
     exists x,
       caster_get intersects {| root_position := root_translation side;
                                dist := panel_dist |} rng = Some (x, rng') /\
       find_ball w' (ball_id ball) = Some (recycled ball x) /\
       ball_x (recycled ball x) = x /\
       ball_y (recycled ball x) = WORKER_BALL_SPAWN_Y /\
       ball_vel (recycled ball x) = (0, 0) /\
       in_panel_span x = true /\
       intersects (x + fst (root_translation side),
                   WORKER_BALL_SPAWN_Y + snd (root_translation side)) = false /\
       (forall e, e <> ball_id ball -> find_ball w' e = find_ball w e)) /\
  (forall a b,
     (forall ball, ~ ((zone_of w a <> None /\ find_ball w b = Some ball) \/
                      (zone_of w b <> None /\ find_ball w a = Some ball))) ->
     ball_reset_one intersects w rng (Stopped a b) = Some (w, rng)).
Proof.
  intros Hd Hr; split.
  - intros a b ball w' rng' Hp H side.
    destruct (recycler_ball_entity w a b ball Hd Hp) as (e & Hf & He).
    simpl in H; rewrite He, Hf in H.
    pose proof (find_ball_id _ _ _ Hf) as Hid.
    destruct (caster_get _ _ rng) as [[x r] |] eqn:Hc; [| discriminate].
    injection H as <- <-.
    destruct (placement_oracle_first_free _ _ _ _ _ Hr Hc)
      as (pre & u & _ & _ & _ & Hno & Hspan).
    exists x; repeat split; auto.
    + unfold find_ball; simpl; rewrite Hid; now apply find_reset_ball_same.
    + intros e' Hne; unfold find_ball; simpl; rewrite Hid in Hne.
      now apply find_reset_ball_other.
  - intros a b Hn; simpl.
    destruct (zone_of w a) as [t |] eqn:Ha.
    + destruct (find_ball w b) as [ball |] eqn:Hb; [| reflexivity].
      exfalso; apply (Hn ball); left; split; [congruence | reflexivity].
    + destruct (zone_of w b) as [t |] eqn:Hb; [| reflexivity].
      destruct (find_ball w a) as [ball |] eqn:Hfa; [| reflexivity].
      exfalso; apply (Hn ball); right; split; [congruence | reflexivity].
Qed.

(** ** Restart *)

Lemma timer_tick_duration (d : N) (t : Timer) :
  t_duration (timer_tick d t) = t_duration t.
Proof. unfold timer_tick; destruct (N.leb _ _); reflexivity. Qed.

Lemma timer_reset_from_ns (t : Timer) : timer_reset t = timer_from_ns (t_duration t).
Proof. reflexivity. Qed.

Lemma spawner_reset_idem (phase : N) (s : WorkerBallSpawner) :
  spawner_reset phase (spawner_reset phase s) = spawner_reset phase s.
Proof.
  unfold spawner_reset; simpl.
  rewrite !timer_reset_from_ns, timer_tick_duration; reflexivity.
Qed.

Lemma restart_trails_idem (g : bool) (ts : list Trail) :
  restart_trails g (restart_trails g ts) = restart_trails g ts.
Proof.
  revert g; induction ts as [| t ts IH]; intros g; simpl; [reflexivity |].
  destruct (trail_link t) eqn:Hl; simpl.
  - rewrite Hl, IH; reflexivity.
  - rewrite IH; reflexivity.
Qed.

Lemma restart_trails_shape (g : bool) (ts : list Trail) :
  Forall2 (fun t t' => (is_idle t = true /\ exists s, t' = park s t) \/
                       (is_idle t = false /\ t' = t))
          ts (restart_trails g ts).
Proof.
  revert g; induction ts as [| t ts IH]; intros g; simpl; [constructor |].
  destruct (trail_link t) eqn:Hl; constructor; unfold is_idle; rewrite ?Hl; auto.
  left; eauto.
Qed.

Lemma restart_trails_sides (g : bool) (ts : list Trail) :
  idle_sides (restart_trails g ts) = alternate g (length (idle_sides ts)).
Proof.
  revert g; induction ts as [| t ts IH]; intros g; simpl; [reflexivity |].
  destruct (trail_link t) eqn:Hl; simpl; rewrite ?Hl; simpl; rewrite IH; reflexivity.
Qed.

(** C7 (counterexample): with one active trail in the pool, after a restart
    that trail is still active and keeps its participant colour, so not
    every trail is Idle and suppressed. *)
Lemma restart_leaves_active_trail :
  ~ (forall t, In t (trails (restart demo_phase active_world)) ->
       is_idle t = true /\ trail_color t = ColorNone).
Proof.
  intros H. specialize (H _ (or_introl eq_refl)). simpl in H.
  destruct H as [H _]; discriminate.
Qed.

(** C7 (amended): restarting twice gives the same world as restarting
    once.  After a restart there is no worker ball, the spawner timer is a
    fresh timer of the same period ticked by the phase shift (the state of
    [WorkerBallSpawner::new] for the standard period) with the counter at
    zero; every trail that was idle is parked and suppressed, the idle
    trails' side tags alternate starting from [false] (right), and every
    trail that was active is left as it was. *)
Theorem restart_idempotent (phase : N) (w : World) :
  restart phase (restart phase w) = restart phase w /\
  balls (restart phase w) = [] /\
  spawner (restart phase w) =
    {| timer := timer_tick phase (timer_from_ns (t_duration (timer (spawner w))));
       counter := 0 |} /\
  (t_duration (timer (spawner w)) = WORKER_BALL_SPAWN_TIMER_NS ->
     spawner (restart phase w) = spawner_new phase) /\
  Forall2 (fun t t' =>
            (is_idle t = true /\ exists s,
               t' = park s t /\ trail_link t' = Inactive s /\
               trail_color t' = ColorNone /\
               trail_pos t' = (rest_x s, WORKER_BALL_SPAWN_Y)) \/
            (is_idle t = false /\ t' = t))
          (trails w) (trails (restart phase w)) /\
  idle_sides (trails (restart phase w)) =
    alternate false (length (idle_sides (trails w))).
Proof.
  split; [| split; [| split; [| split; [| split]]]].
  - destruct w as [z st bs ts n sp g]; unfold restart, set_trails, set_balls, set_spawner;
      simpl. rewrite spawner_reset_idem, restart_trails_idem; reflexivity.
  - reflexivity.
  - reflexivity.
  - intros Hd; change (spawner (restart phase w)) with (spawner_reset phase (spawner w)).
    unfold spawner_reset, spawner_new; rewrite timer_reset_from_ns, Hd; reflexivity.
  - simpl. eapply Forall2_impl; [| apply restart_trails_shape].
    intros t t' [[Hi [s ->]] | Hr]; [left; split; [exact Hi |] | right; exact Hr].
    exists s; repeat split.
  - apply restart_trails_sides.
Qed.

(** ** The population cap *)

(** C8 (counterexample): with the counter at the cap, a frame of one second
    leaves the spawner timer exactly as it was: it does not advance. *)
Lemma capped_timer_frozen :
  run_spawn_workers no_hit only_A true 1000000000 capped_world [] =
    Some (capped_world, []) /\
  timer (spawner capped_world) <>
    timer_tick 1000000000 (timer (spawner capped_world)).
Proof.
  split; [reflexivity |].
  vm_compute; intros H; discriminate H.
Qed.

(** C8 (amended): once the counter has reached the cap, the run condition
    keeps [spawn_workers] from running at all: no ball is spawned and the
    spawner, timer included, stays unchanged; after a restart the condition
    holds again. *)
Theorem capped_spawner_inert (intersects : Q * Q -> bool)
  (survivors : Participant -> bool) (game_is_going : bool) (delta phase : N)
  (w : World) (rng : list Q) :
  (WORKER_BALL_COUNT_MAX <= counter (spawner w))%nat ->
  run_spawn_workers intersects survivors game_is_going delta w rng = Some (w, rng) /\
  spawn_workers_condition (spawner (restart phase w)) = true.
Proof.
  intros H; split; [| reflexivity].
  unfold run_spawn_workers, spawn_workers_condition.
  replace (Nat.ltb _ _) with false by (symmetry; apply Nat.ltb_ge; exact H).
  now rewrite andb_false_r.
Qed.

(** ** The trail side toggle *)

(** C9 (counterexample): the first trail that goes idle after a restart
    is tagged by the toggle as the trail updates before the restart left
    it.  In [toggle_world], restarting at once and then updating tags the
    first trail to go idle [false] (right); running one update first (trail
    0 goes idle, the toggle becomes [true]) and then the same restart and
    update tags it [true] (left).  There is no fixed initial side. *)
Lemma toggle_not_reset_by_restart :
  let wa := restart demo_phase toggle_world in
  let wb := restart demo_phase (update_workers_particle_position toggle_world) in
  go_left toggle_world = false /\
  hd_error (new_idle_tags wa (trails wa) (trails (update_workers_particle_position wa)))
    = Some false /\
  go_left wb = true /\
  hd_error (new_idle_tags wb (trails wb) (trails (update_workers_particle_position wb)))
    = Some true.
Proof. vm_compute. auto. Qed.

Lemma update_trails_tags (w : World) (g : bool) (ts : list Trail) :
  let n := length (filter (dead_linked w) ts) in
  new_idle_tags w ts (fst (update_trails w g ts)) = alternate g n /\
  snd (update_trails w g ts) = if Nat.even n then g else negb g.
Proof.
  revert g; induction ts as [| t ts IH]; intros g; [split; reflexivity |].
  unfold new_idle_tags in *.
  destruct (trail_link t) as [e | s] eqn:Hl; [destruct (transform_query w e) as [p |] eqn:Hf |].
  - assert (Hd : dead_linked w t = false)
      by (unfold dead_linked; rewrite Hl, Hf; reflexivity).
    cbn [update_trails]; rewrite Hl, Hf.
    specialize (IH g); destruct (update_trails w g ts) as [ts' g'].
    cbn [combine flat_map fst snd filter]; rewrite Hd; exact IH.
  - assert (Hd : dead_linked w t = true)
      by (unfold dead_linked; rewrite Hl, Hf; reflexivity).
    cbn [update_trails]; rewrite Hl, Hf.
    specialize (IH (negb g)); destruct (update_trails w (negb g) ts) as [ts' g'].
    cbn [combine flat_map fst snd filter]; rewrite Hd.
    cbn [park trail_link app length alternate].
    destruct IH as [IH1 IH2]; cbn [fst snd] in IH1, IH2; cbn [fst snd].
    rewrite IH1, IH2; split; [reflexivity |].
    rewrite Nat.even_succ, <- Nat.negb_even.
    destruct (Nat.even _); simpl; rewrite ?negb_involutive; reflexivity.
  - assert (Hd : dead_linked w t = false)
      by (unfold dead_linked; rewrite Hl; reflexivity).
    cbn [update_trails]; rewrite Hl.
    specialize (IH g); destruct (update_trails w g ts) as [ts' g'].
    cbn [combine flat_map fst snd filter]; rewrite Hd; exact IH.
Qed.

Lemma update_workers_tags (w : World) :
  let n := length (filter (dead_linked w) (trails w)) in
  new_idle_tags w (trails w) (trails (update_workers_particle_position w)) =
    alternate (go_left w) n /\
  go_left (update_workers_particle_position w) =
    if Nat.even n then go_left w else negb (go_left w).
Proof.
  pose proof (update_trails_tags w (go_left w) (trails w)) as H.
  unfold update_workers_particle_position.
  destruct (update_trails w (go_left w) (trails w)) as [ts g]; exact H.
Qed.

(** C9 (amended): the toggle of the trail update is that system's own
    persistent state: each run tags the trails that go idle [g], [!g], [g],
    ... starting from it and leaves it flipped once per such trail.
    [restart] does not touch it: it tags the idle trails it parks with its
    own fresh toggle, alternating from [false].  So the trails that go idle
    in the first update after a restart are tagged starting from the toggle
    as it was before the restart. *)
Theorem trail_toggle_survives_restart (phase : N) (w : World) :
  (forall v : World,
     let n := length (filter (dead_linked v) (trails v)) in
     new_idle_tags v (trails v) (trails (update_workers_particle_position v)) =
       alternate (go_left v) n /\
     go_left (update_workers_particle_position v) =
       if Nat.even n then go_left v else negb (go_left v)) /\
  go_left (restart phase w) = go_left w /\
  idle_sides (trails (restart phase w)) =
    alternate false (length (idle_sides (trails w))) /\
  new_idle_tags (restart phase w) (trails (restart phase w))
    (trails (update_workers_particle_position (restart phase w))) =
    alternate (go_left w)
      (length (filter (dead_linked (restart phase w)) (trails (restart phase w)))).
Proof.
  split; [intros v; apply update_workers_tags |].
  split; [reflexivity |].
  split; [apply restart_trails_sides |].
  exact (proj1 (update_workers_tags (restart phase w))).
Qed.

(** ** Spawn rounds *)

Lemma spawn_single_effect (intersects : Q * Q -> bool) (side : PanelRootSide)
  (p : Participant) (w w' : World) (rng rng' : list Q) :
  spawn_single intersects side p w rng = Some (w', rng') ->
  length (balls w') = S (length (balls w)) /\ spawner w' = spawner w.
Proof.
  unfold spawn_single.
  destruct (caster_get _ _ _) as [[x r] |]; [| discriminate].
  intros H; injection H as <- _; simpl.
  rewrite length_app; simpl; split; [lia | reflexivity].
Qed.

Lemma setup_trail_effect (side : PanelRootSide) (p : Participant) (x : Q)
  (w : World) (iter : list Entity) :
  length (balls (fst (setup_trail side p x w iter))) = S (length (balls w)) /\
  spawner (fst (setup_trail side p x w iter)) = spawner w.
Proof.
  unfold setup_trail; destruct iter; simpl; rewrite length_app; simpl;
    split; first [lia | reflexivity].
Qed.

Lemma spawn_panel_effect (intersects : Q * Q -> bool) (survivors : Participant -> bool)
  (snapshot : list Trail) (a b : Participant) (side : PanelRootSide) (want_left : bool)
  (w w' : World) (rng rng' : list Q) :
  spawn_panel intersects survivors snapshot a b side want_left w rng = Some (w', rng') ->
  length (balls w') = (length (balls w) + length (filter survivors [a; b]))%nat /\
  spawner w' = spawner w.
Proof.
  unfold spawn_panel; simpl.
  destruct (survivors a), (survivors b); simpl.
  - destruct (pair_draw _ _ _) as [[[xa xb] r] |]; [| discriminate].
    destruct (setup_trail side a xa w _) as [w1 i1] eqn:H1.
    destruct (setup_trail side b xb w1 i1) as [w2 i2] eqn:H2.
    intros H; injection H as <- _.
    pose proof (setup_trail_effect side a xa w
                  (map trail_id (filter (is_inactive_side want_left) snapshot))) as [L1 S1].
    pose proof (setup_trail_effect side b xb w1 i1) as [L2 S2].
    rewrite H1 in L1, S1; rewrite H2 in L2, S2; simpl in *.
    split; [lia | congruence].
  - intros H; apply spawn_single_effect in H as [L S]; split; [lia | exact S].
  - intros H; apply spawn_single_effect in H as [L S]; split; [lia | exact S].
  - intros H; injection H as <- _; split; [lia | reflexivity].
Qed.

(** C10: on a spawn tick where the timer fires, the spawn-round counter goes
    up by exactly one, while the number of balls goes up by the number of
    living participants (between 0 and 4, that is up to two per panel, and 0
    when everybody is dead).  Hence under the run condition the counter never
    passes the cap: it bounds the spawn rounds, not the live balls. *)
Theorem spawn_round_counts_once (intersects : Q * Q -> bool)
  (survivors : Participant -> bool) (delta : N) (w w' : World) (rng rng' : list Q) :
  just_finished (timer_tick delta (timer (spawner w))) = true ->
  spawn_workers intersects survivors delta w rng = Some (w', rng') ->
  counter (spawner w') = S (counter (spawner w)) /\
  length (balls w') = (length (balls w) + alive_count survivors)%nat /\
  (alive_count survivors <= 4)%nat /\
  ((forall p, survivors p = false) -> balls w' = balls w) /\
  (forall game_is_going w'' rng'',
     (counter (spawner w) <= WORKER_BALL_COUNT_MAX)%nat ->
     run_spawn_workers intersects survivors game_is_going delta w rng = Some (w'', rng'') ->
     (counter (spawner w'') <= WORKER_BALL_COUNT_MAX)%nat).
Proof.
  intros Hj Hs.
  assert (Hc : counter (spawner w') = S (counter (spawner w)) /\
               length (balls w') = (length (balls w) + alive_count survivors)%nat).
  { unfold spawn_workers in Hs; rewrite Hj in Hs; simpl in Hs.
    destruct (spawn_panel _ _ _ A B Left true _ rng) as [[w1 r1] |] eqn:H1;
      [| discriminate].
    destruct (spawn_panel _ _ _ C D Right false w1 r1) as [[w2 r2] |] eqn:H2;
      [| discriminate].
    injection Hs as <- _.
    apply spawn_panel_effect in H1 as [L1 S1]; apply spawn_panel_effect in H2 as [L2 S2].
    simpl in *; rewrite S2, S1; split; [reflexivity |].
    unfold alive_count; simpl in *.
    destruct (survivors A), (survivors B), (survivors C), (survivors D);
      simpl in *; lia. }
  destruct Hc as [Hc Hl].
  split; [exact Hc |]. split; [exact Hl |]. split.
  - unfold alive_count; simpl.
    destruct (survivors A), (survivors B), (survivors C), (survivors D); simpl; lia.
  - split.
    + intros Hd.
      unfold spawn_workers in Hs; rewrite Hj in Hs; simpl in Hs.
      unfold spawn_panel in Hs; rewrite !Hd in Hs.
      injection Hs as <- _; reflexivity.
    + intros g w'' r'' Hle Hr; unfold run_spawn_workers in Hr.
      destruct (g && spawn_workers_condition (spawner w)) eqn:Hg.
      * apply andb_true_iff in Hg as [_ Hg]; unfold spawn_workers_condition in Hg.
        apply Nat.ltb_lt in Hg.
        rewrite Hs in Hr; injection Hr as <- _; rewrite Hc; lia.
      * injection Hr as <- _; exact Hle.
Qed.

(** ** Witnesses at concrete inputs *)

Lemma demo_kinds_disjoint : kinds_disjoint demo_world.
Proof.
  intros e; unfold zone_of, ball_query, find_ball; simpl.
  destruct e as [| [| [| e]]]; simpl; auto.
Qed.

Lemma trigger_event_exact_witness :
  kinds_disjoint demo_world /\
  trigger_event (zone_of demo_world) (ball_query demo_world) 0%nat
    [Started 1%nat 2%nat; Started 2%nat 1%nat] =
  [ {| te_participant := A; te_trigger_type := Multiply 4 |};
    {| te_participant := A; te_trigger_type := Multiply 4 |} ].
Proof.
  split; [exact demo_kinds_disjoint |].
  destruct (trigger_event_exact demo_world demo_kinds_disjoint) as (_ & _ & _ & _ & H).
  apply H. constructor; [| constructor; [| constructor]].
  - exists 1%nat, 2%nat; split; [reflexivity | left; split; reflexivity].
  - exists 2%nat, 1%nat; split; [reflexivity | right; split; reflexivity].
Defined.

Lemma trigger_event_restart_discards_witness :
  (1 <= 1)%nat /\
  trigger_event (zone_of demo_world) (ball_query demo_world) 1%nat [Started 1%nat 2%nat] = [].
Proof.
  split; [lia |]. apply trigger_event_restart_discards; lia.
Defined.

Lemma placement_oracle_first_free_witness :
  Forall raw_draw [1 # 2] /\
  caster_get no_hit {| root_position := root_translation Left; dist := panel_dist |}
    [1 # 2] = Some (0 # 2, []) /\
  in_panel_span (0 # 2) = true.
Proof.
  assert (Hr : Forall raw_draw [1 # 2])
    by (constructor; [unfold raw_draw; split; lra | constructor]).
  assert (Hc : caster_get no_hit {| root_position := root_translation Left;
                                    dist := panel_dist |} [1 # 2] = Some (0 # 2, []))
    by (vm_compute; reflexivity).
  split; [exact Hr |]. split; [exact Hc |].
  destruct (placement_oracle_first_free no_hit Left _ _ _ Hr Hc)
    as (_ & _ & _ & _ & _ & _ & H); exact H.
Defined.

Lemma paired_draw_rejects_whole_pairs_witness :
  pair_draw no_hit {| root_position := root_translation Left; dist := panel_dist |}
    [1 # 4; 3 # 4] = Some (-260 # 4, 260 # 4, []) /\
  WORKER_BALL_DIAMETER <= Qabs ((-260 # 4) - (260 # 4)).
Proof.
  assert (H : pair_draw no_hit {| root_position := root_translation Left;
                                  dist := panel_dist |}
                [1 # 4; 3 # 4] = Some (-260 # 4, 260 # 4, []))
    by (vm_compute; reflexivity).
  split; [exact H |].
  destruct (paired_draw_rejects_whole_pairs no_hit Left _ _ _ _ H)
    as (_ & _ & _ & _ & Hle); exact Hle.
Defined.

Lemma zone_exit_recycles_witness :
  kinds_disjoint demo_world /\ Forall raw_draw [1 # 2] /\
  exists w' x,
    ball_reset_one no_hit demo_world [1 # 2] (Stopped 1%nat 2%nat) = Some (w', []) /\
    find_ball w' 2%nat = Some (recycled (new_ball 2%nat A Left 0) x) /\
    in_panel_span x = true.
Proof.
  assert (Hr : Forall raw_draw [1 # 2])
    by (constructor; [unfold raw_draw; split; lra | constructor]).
  split; [exact demo_kinds_disjoint |]. split; [exact Hr |].
  destruct (zone_exit_recycles no_hit demo_world [1 # 2] demo_kinds_disjoint Hr)
    as [H _].
  set (w' := set_balls (reset_ball 2%nat (0 # 2) (balls demo_world)) demo_world).
  assert (He : ball_reset_one no_hit demo_world [1 # 2] (Stopped 1%nat 2%nat) =
               Some (w', [])) by (vm_compute; reflexivity).
  assert (Hz : zone_of demo_world 1%nat <> None) by (vm_compute; discriminate).
  destruct (H 1%nat 2%nat (new_ball 2%nat A Left 0) w' []
              (or_introl (conj Hz eq_refl)) He)
    as (x & _ & Hf & _ & _ & _ & Hs & _).
  exists w', x; split; [exact He |]; split; [exact Hf | exact Hs].
Defined.

Lemma capped_spawner_inert_witness :
  (WORKER_BALL_COUNT_MAX <= counter (spawner capped_world))%nat /\
  run_spawn_workers no_hit only_A true 1000000000 capped_world [] =
    Some (capped_world, []).
Proof.
  assert (H : (WORKER_BALL_COUNT_MAX <= counter (spawner capped_world))%nat)
    by (vm_compute; lia).
  split; [exact H |].
  exact (proj1 (capped_spawner_inert no_hit only_A true 1000000000 demo_phase
                  capped_world [] H)).
Defined.

Lemma spawn_round_counts_once_witness :
  just_finished (timer_tick 1000000000 (timer (spawner demo_world))) = true /\
  exists w',
    spawn_workers no_hit only_A 1000000000 demo_world [1 # 2] = Some (w', []) /\
    counter (spawner w') = 1%nat /\ length (balls w') = 2%nat.
Proof.
  assert (Hj : just_finished (timer_tick 1000000000 (timer (spawner demo_world))) = true)
    by (vm_compute; reflexivity).
  split; [exact Hj |].
  destruct (spawn_workers no_hit only_A 1000000000 demo_world [1 # 2])
    as [[w' r] |] eqn:Hs; [| vm_compute in Hs; discriminate].
  assert (Hr : r = []) by (vm_compute in Hs; injection Hs as _ <-; reflexivity).
  subst r. exists w'; split; [reflexivity |].
  destruct (spawn_round_counts_once no_hit only_A 1000000000 demo_world w' [1 # 2] []
              Hj Hs) as (Hc & Hl & _).
  rewrite Hc, Hl; split; reflexivity.
Defined.

(** * Further properties of the panel systems *)

(** ** Trigger translator *)

Lemma trigger_event_one_sound (w : World) (ev : CollisionEvent) (o : TriggerEvent) :
  kinds_disjoint w ->
  In o (trigger_event_one (zone_of w) (ball_query w) ev) ->
  exists a b, ev = Started a b /\
    pairs_zone_ball w a b (te_trigger_type o) (te_participant o).
Proof.
  intros Hd Hin; destruct ev as [a b | a b]; [| destruct Hin].
  exists a, b; split; [reflexivity |]; unfold pairs_zone_ball; simpl in Hin.
  destruct (zone_of w a) as [tt |] eqn:Ha.
  - destruct (Hd a) as [H | H]; [congruence |]. rewrite H in Hin.
    destruct (ball_query w b) as [p |] eqn:Hb; [| destruct Hin].
    destruct Hin as [<- | []]; left; auto.
  - destruct (zone_of w b) as [tt |] eqn:Hb; [| destruct Hin].
    destruct (ball_query w a) as [p |] eqn:Hpa.
    + destruct Hin as [<- | []]; right; auto.
    + destruct (Hd b) as [H | H]; [congruence |]. rewrite H in Hin; destruct Hin.
Qed.

(** Every trigger event the translator emits comes from a contact-begin
    event of the batch whose two entities are a trigger zone of that type
    and a worker ball of that participant, and only when no restart event
    is pending. *)
Theorem trigger_event_sound (w : World) (restart_events : nat)
  (evs : list CollisionEvent) (o : TriggerEvent) :
  kinds_disjoint w ->
  In o (trigger_event (zone_of w) (ball_query w) restart_events evs) ->
  restart_events = 0%nat /\
  exists a b, In (Started a b) evs /\
    pairs_zone_ball w a b (te_trigger_type o) (te_participant o).
Proof.
  intros Hd Hin; unfold trigger_event in Hin.
  destruct (Nat.eqb restart_events 0) eqn:Hr; [| destruct Hin].
  split; [now apply Nat.eqb_eq |].
  apply in_flat_map in Hin as (ev & Hev & Ho).
  destruct (trigger_event_one_sound w ev o Hd Ho) as (a & b & -> & Hp).
  eauto.
Qed.

(** The translator never emits more trigger events than there are
    contact-begin events in the batch. *)
Theorem trigger_event_count_bound (zq : Entity -> option TriggerType)
  (bq : Entity -> option Participant) (restart_events : nat)
  (evs : list CollisionEvent) :
  (length (trigger_event zq bq restart_events evs) <= count_started evs)%nat.
Proof.
  unfold trigger_event.
  assert (H : (length (flat_map (trigger_event_one zq bq) evs) <= count_started evs)%nat).
  { unfold count_started; induction evs as [| ev evs IH]; simpl; [lia |].
    rewrite length_app.
    destruct ev as [a b | a b]; simpl.
    - destruct (match zq a with Some x => Some x | None => zq b end); simpl; [| lia].
      destruct (match bq a with Some x => Some x | None => bq b end); simpl; lia.
    - exact IH. }
  destruct (Nat.eqb restart_events 0); [exact H | simpl; lia].
Qed.

(** ** Trail update *)

Lemma Forall2_map_eq {X Y Z : Type} (f : X -> Z) (g : Y -> Z) (R : X -> Y -> Prop)
  (xs : list X) (ys : list Y) :
  (forall x y, R x y -> g y = f x) -> Forall2 R xs ys -> map g ys = map f xs.
Proof. intros Hf H; induction H; simpl; [reflexivity |]; rewrite (Hf _ _ H), IHForall2; reflexivity. Qed.

Lemma Forall2_in_r {X Y : Type} (R : X -> Y -> Prop) (xs : list X) (ys : list Y) (y : Y) :
  Forall2 R xs ys -> In y ys -> exists x, In x xs /\ R x y.
Proof.
  intros H; induction H as [| x y' xs ys Hr _ IH]; [intros [] |].
  intros [-> | Hin]; [exists x; split; [left; reflexivity | exact Hr] |].
  destruct (IH Hin) as (x' & Hx & Hr'); exists x'; split; [right; exact Hx | exact Hr'].
Qed.

Lemma Forall2_in_l {X Y : Type} (R : X -> Y -> Prop) (xs : list X) (ys : list Y) (x : X) :
  Forall2 R xs ys -> In x xs -> exists y, In y ys /\ R x y.
Proof.
  intros H; induction H as [| x' y xs ys Hr _ IH]; [intros [] |].
  intros [-> | Hin]; [exists y; split; [left; reflexivity | exact Hr] |].
  destruct (IH Hin) as (y' & Hy & Hr'); exists y'; split; [right; exact Hy | exact Hr'].
Qed.

Lemma update_trails_shape (w : World) (g : bool) (ts : list Trail) :
  Forall2 (fun t t' =>
    trail_id t' = trail_id t /\
    (is_idle t = true -> t' = t) /\
    (forall e, trail_link t' = Active e ->
       trail_link t = Active e /\ trail_color t' = trail_color t /\
       transform_query w e = Some (trail_pos t')) /\
    (dead_linked w t = true -> exists s, t' = park s t))
    ts (fst (update_trails w g ts)).
Proof.
  revert g; induction ts as [| t ts IH]; intros g; simpl; [constructor |].
  unfold is_idle, dead_linked; destruct (trail_link t) as [e | s] eqn:Hl.
  - destruct (transform_query w e) as [p |] eqn:Hf.
    + specialize (IH g); destruct (update_trails w g ts); simpl in *.
      constructor; [| exact IH]. rewrite Hl, Hf.
      split; [reflexivity |]. split; [intros H; discriminate H |].
      split; [| intros H; discriminate H].
      intros e' He; simpl in He; injection He as <-.
      split; [reflexivity |]. split; [reflexivity |]. exact Hf.
    + specialize (IH (negb g)); destruct (update_trails w (negb g) ts); simpl in *.
      constructor; [| exact IH]. rewrite Hl, Hf.
      split; [reflexivity |]. split; [intros H; discriminate H |].
      split; [intros e' He; discriminate He |]. intros _; eauto.
  - specialize (IH g); destruct (update_trails w g ts); simpl in *.
    constructor; [| exact IH]. rewrite Hl.
    split; [reflexivity |]. split; [reflexivity |].
    split; [intros e He; congruence | intros H; discriminate H].
Qed.

(** The trail update keeps the pool's trail entities; it leaves every idle
    trail as it was; every trail still active follows an entity that
    [Query<&GlobalTransform>] resolves and sits at its translation (for a
    worker ball, its global position); every active trail whose entity is
    gone has been parked. *)
Theorem update_trails_invariant (w : World) :
  let w' := update_workers_particle_position w in
  Permutation (map trail_id (trails w')) (map trail_id (trails w)) /\
  (forall t, In t (trails w) -> is_idle t = true -> In t (trails w')) /\
  (forall t' e, In t' (trails w') -> trail_link t' = Active e ->
     transform_query w e = Some (trail_pos t')) /\
  (forall t, In t (trails w) -> dead_linked w t = true ->
     exists s, In (park s t) (trails w')).
Proof.
  intros w'. pose proof (update_trails_shape w (go_left w) (trails w)) as H.
  assert (Ht : trails w' = fst (update_trails w (go_left w) (trails w))).
  { unfold w', update_workers_particle_position.
    destruct (update_trails w (go_left w) (trails w)); reflexivity. }
  rewrite Ht; split.
  { erewrite Forall2_map_eq; [reflexivity | | exact H]; intros t t' Hx; apply Hx. }
  split; [| split].
  - intros t Hin Hi.
    destruct (Forall2_in_l _ _ _ _ H Hin) as (t' & Hin' & _ & Hx & _).
    rewrite <- (Hx Hi); exact Hin'.
  - intros t' e Hin He.
    destruct (Forall2_in_r _ _ _ _ H Hin) as (t & _ & _ & _ & Hx & _).
    destruct (Hx e He) as (_ & _ & Hb); exact Hb.
  - intros t Hin Hd.
    destruct (Forall2_in_l _ _ _ _ H Hin) as (t' & Hin' & _ & _ & _ & Hx).
    destruct (Hx Hd) as [s ->]; exists s; exact Hin'.
Qed.

(** The trail update gives the trails that go idle the sides [g], [!g],
    [g], ... in the query order of the run, starting from its toggle [g], and leaves the
    toggle flipped once per such trail. *)
Theorem update_trails_toggle (w : World) (g : bool) (ts : list Trail) :
  let n := length (filter (dead_linked w) ts) in
  new_idle_tags w ts (fst (update_trails w g ts)) = alternate g n /\
  snd (update_trails w g ts) = if Nat.even n then g else negb g.
Proof. exact (update_trails_tags w g ts). Qed.

Lemma static_transform_restart (phase : N) (w : World) (e : Entity) :
  transform_query (restart phase w) e = static_transform w e.
Proof.
  unfold transform_query, static_transform; cbn [find_ball restart balls set_balls
    set_trails set_spawner find statics trails].
  assert (E : forall g ts, existsb (fun t => Nat.eqb (trail_id t) e) (restart_trails g ts) =
                          existsb (fun t => Nat.eqb (trail_id t) e) ts).
  { intros g ts; revert g; induction ts as [| t ts IH]; intros g; simpl; [reflexivity |].
    destruct (trail_link t); simpl; rewrite IH; reflexivity. }
  rewrite E; reflexivity.
Qed.

(** When every active trail follows a worker ball, a restart followed by
    the next trail update leaves every trail of the pool idle,
    colour-suppressed and parked at the resting position of its side. *)
Theorem restart_then_update_all_idle (phase : N) (w : World) :
  links_to_balls w ->
  Forall (fun t => exists s, trail_link t = Inactive s /\ trail_color t = ColorNone /\
                             trail_pos t = (rest_x s, WORKER_BALL_SPAWN_Y))
    (trails (update_workers_particle_position (restart phase w))).
Proof.
  intros Hlinks.
  pose proof (update_trails_shape (restart phase w) (go_left (restart phase w))
                (trails (restart phase w))) as H.
  pose proof (restart_trails_shape false (trails w)) as Hr.
  assert (Ht : trails (update_workers_particle_position (restart phase w)) =
               fst (update_trails (restart phase w) (go_left (restart phase w))
                      (trails (restart phase w)))).
  { unfold update_workers_particle_position.
    destruct (update_trails _ _ _); reflexivity. }
  rewrite Ht. change (trails (restart phase w)) with (restart_trails false (trails w)) in H |- *.
  revert H; generalize (fst (update_trails (restart phase w) (go_left (restart phase w))
                              (restart_trails false (trails w)))).
  intros ts' H.
  apply Forall_forall; intros t' Hin.
  destruct (Forall2_in_r _ _ _ _ H Hin) as (t & Hint & _ & Hidle & Hact & Hdead).
  destruct (Forall2_in_r _ _ _ _ Hr Hint) as (t0 & Hin0 & [[_ [s ->]] | [Ha ->]]).
  - rewrite Hidle by reflexivity. exists s; repeat split.
  - unfold is_idle in Ha; destruct (trail_link t0) as [e |] eqn:Hl; [| discriminate].
    destruct Hdead as [s ->].
    + unfold dead_linked; rewrite Hl, static_transform_restart.
      unfold links_to_balls in Hlinks; rewrite Forall_forall in Hlinks; specialize (Hlinks t0 Hin0); rewrite Hl in Hlinks.
      rewrite Hlinks; reflexivity.
    + exists s; repeat split.
Qed.

(** ** Zone-exit recycler *)

Lemma ball_reset_one_frame (intersects : Q * Q -> bool) (w w' : World)
  (rng rng' : list Q) (ev : CollisionEvent) :
  ball_reset_one intersects w rng ev = Some (w', rng') ->
  map ball_ident (balls w') = map ball_ident (balls w) /\
  trails w' = trails w /\ spawner w' = spawner w /\ zones w' = zones w /\
  next_entity w' = next_entity w /\ go_left w' = go_left w.
Proof.
  unfold ball_reset_one; intros H.
  destruct ev as [a b | a b]; [injection H as <- _; auto 10 |].
  destruct (match zone_of w a with Some _ => Some b | None =>
              match zone_of w b with Some _ => Some a | None => None end end) as [e |];
    [| injection H as <- _; auto 10].
  destruct (find_ball w e) as [ball |]; [| injection H as <- _; auto 10].
  destruct (caster_get _ _ rng) as [[x r] |]; [| discriminate].
  injection H as <- _; cbn [set_balls balls trails spawner zones next_entity go_left].
  refine (conj _ (conj eq_refl (conj eq_refl (conj eq_refl (conj eq_refl eq_refl))))).
  unfold reset_ball; rewrite map_map; apply map_ext; intros b'.
  destruct (Nat.eqb (ball_id b') e); reflexivity.
Qed.

(** The recycler only moves balls: across a whole batch of events the balls
    keep their entities, owners and parent panels (so none is created or
    destroyed, and the owner-side placement invariant is kept), and the
    trails, the spawner and the zones are untouched.  A batch of
    contact-begin events only changes nothing at all. *)
Theorem ball_reset_frame (intersects : Q * Q -> bool) (w : World) (rng : list Q)
  (evs : list CollisionEvent) :
  (forall w' rng', ball_reset intersects w rng evs = Some (w', rng') ->
     map ball_ident (balls w') = map ball_ident (balls w) /\
     (parents_ok (balls w) -> parents_ok (balls w')) /\
     trails w' = trails w /\ spawner w' = spawner w /\ zones w' = zones w) /\
  (Forall (fun ev => exists a b, ev = Started a b) evs ->
     ball_reset intersects w rng evs = Some (w, rng)).
Proof.
  split.
  - revert w rng; induction evs as [| ev evs IH]; intros w rng w' rng' H; simpl in H.
    + injection H as <- <-; repeat split; auto.
    + destruct (ball_reset_one intersects w rng ev) as [[w1 r1] |] eqn:H1;
        [| discriminate].
      destruct (ball_reset_one_frame _ _ _ _ _ _ H1) as (Hi & Ht & Hs & Hz & _).
      destruct (IH _ _ _ _ H) as (Hi' & Hp' & Ht' & Hs' & Hz').
      split; [congruence |]. split; [| split; [congruence | split; congruence]].
      intros Hp; apply Hp'.
      assert (Hfo : forall bs bs', map ball_ident bs' = map ball_ident bs ->
                      parents_ok bs -> parents_ok bs').
      { unfold parents_ok; induction bs as [| b0 bs IHb]; intros [| b1 bs'] Hm Hf;
          simpl in Hm; try discriminate; [constructor |].
        unfold ball_ident in Hm; injection Hm as Hid Ho Hpa Hm.
        inversion Hf as [| ? ? Hb0 Hf']; subst.
        constructor; [congruence | exact (IHb _ Hm Hf')]. }
      exact (Hfo _ _ Hi Hp).
  - intros Hs; revert w rng; induction Hs as [| ev evs [a [b ->]] _ IH]; intros w rng;
      [reflexivity |]; simpl; apply IH.
Qed.

(** ** Spawner: new balls and the trail pool *)

Lemma caster_get_panel (intersects : Q * Q -> bool) (r : Q * Q) (rng : list Q)
  (x : Q) (rng' : list Q) :
  Forall raw_draw rng ->
  caster_get intersects {| root_position := r; dist := panel_dist |} rng = Some (x, rng') ->
  in_panel_span x = true /\ Forall raw_draw rng'.
Proof.
  intros Hr H; induction Hr as [| u rng Hu Hr IH]; [discriminate |].
  cbn [caster_get dist root_position] in H.
  destruct (intersects _); [exact (IH H) |].
  injection H as <- <-; split; [apply panel_sample_in_span; exact Hu | exact Hr].
Qed.

Lemma pair_loop_panel (intersects : Q * Q -> bool) (r : Q * Q) (fuel : nat)
  (rng : list Q) (xa xb : Q) (rng' : list Q) :
  Forall raw_draw rng ->
  pair_loop intersects {| root_position := r; dist := panel_dist |} fuel rng =
    Some (xa, xb, rng') ->
  in_panel_span xa = true /\ in_panel_span xb = true /\ Forall raw_draw rng'.
Proof.
  revert rng; induction fuel as [| fuel IH]; intros rng Hr H; [discriminate |].
  cbn [pair_loop] in H.
  destruct (caster_get _ _ rng) as [[ya r1] |] eqn:H1; [| discriminate].
  destruct (caster_get _ _ r1) as [[yb r2] |] eqn:H2; [| discriminate].
  destruct (caster_get_panel _ _ _ _ _ Hr H1) as [Ha Hr1].
  destruct (caster_get_panel _ _ _ _ _ Hr1 H2) as [Hb Hr2].
  destruct (Qlt_bool _ _); [injection H as <- <- <-; auto | exact (IH _ Hr2 H)].
Qed.

Lemma setup_trail_balls (side : PanelRootSide) (p : Participant) (x : Q) (w : World)
  (iter : list Entity) :
  balls (fst (setup_trail side p x w iter)) = balls w ++ [new_ball (next_entity w) p side x].
Proof. unfold setup_trail; destruct iter; reflexivity. Qed.

Lemma setup_trail_trails (side : PanelRootSide) (p : Participant) (x : Q) (w : World)
  (iter : list Entity) :
  length (trails (fst (setup_trail side p x w iter))) =
    (length (trails w) + match iter with [] => 1 | _ => 0 end)%nat /\
  snd (setup_trail side p x w iter) = tl iter.
Proof.
  unfold setup_trail; destruct iter; cbn [fst snd trails set_trails set_balls fresh tl];
    split; try reflexivity.
  - rewrite length_app; reflexivity.
  - unfold update_trail; rewrite length_map; lia.
Qed.

Lemma new_ball_placed (side : PanelRootSide) (p : Participant) (e : Entity) (x : Q) :
  in_panel_span x = true -> placed side p (new_ball e p side x).
Proof. intros Hx; unfold placed; repeat split; exact Hx. Qed.

Lemma spawn_single_balls (intersects : Q * Q -> bool) (side : PanelRootSide)
  (p : Participant) (w w' : World) (rng rng' : list Q) :
  Forall raw_draw rng ->
  spawn_single intersects side p w rng = Some (w', rng') ->
  exists b, balls w' = balls w ++ [b] /\ placed side p b /\ Forall raw_draw rng'.
Proof.
  intros Hr; unfold spawn_single.
  destruct (caster_get _ _ rng) as [[x r] |] eqn:H1; [| discriminate].
  destruct (caster_get_panel _ _ _ _ _ Hr H1) as [Hx Hr'].
  intros H; injection H as <- <-.
  exists (new_ball (next_entity w) p side x).
  split; [reflexivity | split; [apply new_ball_placed; exact Hx | exact Hr']].
Qed.

Lemma spawn_panel_balls (intersects : Q * Q -> bool) (survivors : Participant -> bool)
  (snapshot : list Trail) (a b : Participant) (side : PanelRootSide) (want_left : bool)
  (w w' : World) (rng rng' : list Q) :
  Forall raw_draw rng ->
  spawn_panel intersects survivors snapshot a b side want_left w rng = Some (w', rng') ->
  exists news, balls w' = balls w ++ news /\
    Forall2 (fun p bl => placed side p bl) (filter survivors [a; b]) news /\
    Forall raw_draw rng'.
Proof.
  intros Hr; unfold spawn_panel; cbn [filter].
  destruct (survivors a), (survivors b).
  - destruct (pair_draw _ _ _) as [[[xa xb] r] |] eqn:Hp; [| discriminate].
    destruct (pair_loop_panel _ _ _ _ _ _ _ Hr Hp) as (Ha & Hb & Hr').
    destruct (setup_trail side a xa w _) as [w1 i1] eqn:H1.
    destruct (setup_trail side b xb w1 i1) as [w2 i2] eqn:H2.
    intros H; injection H as <- <-.
    pose proof (setup_trail_balls side a xa w
                  (map trail_id (filter (is_inactive_side want_left) snapshot))) as E1.
    pose proof (setup_trail_balls side b xb w1 i1) as E2.
    rewrite H1 in E1; rewrite H2 in E2; cbn [fst] in E1, E2.
    exists [new_ball (next_entity w) a side xa; new_ball (next_entity w1) b side xb].
    split; [rewrite E2, E1, <- app_assoc; reflexivity |].
    split; [| exact Hr'].
    constructor; [apply new_ball_placed; exact Ha |].
    constructor; [apply new_ball_placed; exact Hb | constructor].
  - intros H; destruct (spawn_single_balls _ _ _ _ _ _ _ Hr H) as (bl & E & Hpl & Hr').
    exists [bl]; split; [exact E | split; [constructor; [exact Hpl | constructor] | exact Hr']].
  - intros H; destruct (spawn_single_balls _ _ _ _ _ _ _ Hr H) as (bl & E & Hpl & Hr').
    exists [bl]; split; [exact E | split; [constructor; [exact Hpl | constructor] | exact Hr']].
  - intros H; injection H as <- <-; exists [].
    split; [rewrite app_nil_r; reflexivity | split; [constructor | exact Hr]].
Qed.

Lemma Forall2_impl_in {X Y : Type} (R R' : X -> Y -> Prop) (xs : list X) (ys : list Y) :
  Forall2 R xs ys -> (forall x y, In x xs -> R x y -> R' x y) -> Forall2 R' xs ys.
Proof.
  intros H; induction H as [| x y xs ys Hr _ IH]; intros Himp; constructor.
  - apply Himp; [left; reflexivity | exact Hr].
  - apply IH; intros x' y' Hin; apply Himp; right; exact Hin.
Qed.

(** A spawn round appends exactly one ball per surviving participant, in the
    order A, B, C, D, and nothing when the timer has not fired: each new
    ball belongs to its participant, hangs under the root of that
    participant's side, starts at rest at the spawn height, and lies within
    the panel's span. *)
Theorem spawn_workers_new_balls (intersects : Q * Q -> bool)
  (survivors : Participant -> bool) (delta : N) (w w' : World) (rng rng' : list Q) :
  Forall raw_draw rng ->
  spawn_workers intersects survivors delta w rng = Some (w', rng') ->
  exists news, balls w' = balls w ++ news /\
    Forall2 (fun p b => placed (for_participant p) p b)
      (if just_finished (timer_tick delta (timer (spawner w)))
       then filter survivors [A; B; C; D] else []) news /\
    Forall raw_draw rng'.
Proof.
  intros Hr; unfold spawn_workers; cbv beta zeta.
  destruct (just_finished (timer_tick delta (timer (spawner w)))); cbn [negb].
  - destruct (spawn_panel _ _ _ A B Left true _ rng) as [[w1 r1] |] eqn:H1;
      [| discriminate].
    destruct (spawn_panel _ _ _ C D Right false w1 r1) as [[w2 r2] |] eqn:H2;
      [| discriminate].
    intros H; injection H as <- <-.
    destruct (spawn_panel_balls _ _ _ _ _ _ _ _ _ _ _ Hr H1) as (n1 & E1 & F1 & R1).
    destruct (spawn_panel_balls _ _ _ _ _ _ _ _ _ _ _ R1 H2) as (n2 & E2 & F2 & R2).
    exists (n1 ++ n2); split; [| split; [| exact R2]].
    + cbn [balls set_spawner] in *; rewrite E2, E1, app_assoc; reflexivity.
    + change [A; B; C; D] with ([A; B] ++ [C; D]); rewrite filter_app.
      apply Forall2_app.
      * apply (Forall2_impl_in _ _ _ _ F1); intros p bl Hin Hp.
        apply filter_In in Hin as [Hin _].
        destruct Hin as [<- | [<- | []]]; exact Hp.
      * apply (Forall2_impl_in _ _ _ _ F2); intros p bl Hin Hp.
        apply filter_In in Hin as [Hin _].
        destruct Hin as [<- | [<- | []]]; exact Hp.
  - intros H; injection H as <- <-; exists [].
    split; [cbn [balls set_spawner]; rewrite app_nil_r; reflexivity |].
    split; [constructor | exact Hr].
Qed.

(** The trail pool of a panel grows by one trail per ball that found no idle
    trail of its side: a lone survivor always adds one, a pair adds
    [2 - min 2 k] where [k] idle trails of the side were there. *)
Theorem spawn_panel_trail_count (intersects : Q * Q -> bool)
  (survivors : Participant -> bool) (snapshot : list Trail) (a b : Participant)
  (side : PanelRootSide) (want_left : bool) (w w' : World) (rng rng' : list Q) :
  spawn_panel intersects survivors snapshot a b side want_left w rng = Some (w', rng') ->
  length (trails w') = (length (trails w) +
    match survivors a, survivors b with
    | true, true => 2 - Nat.min 2 (length (filter (is_inactive_side want_left) snapshot))
    | false, false => 0
    | _, _ => 1
    end)%nat.
Proof.
  unfold spawn_panel; intros H.
  destruct (survivors a), (survivors b).
  - destruct (pair_draw _ _ _) as [[[xa xb] r] |]; [| discriminate].
    rewrite <- (length_map trail_id (filter (is_inactive_side want_left) snapshot)).
    destruct (setup_trail side a xa w _) as [w1 i1] eqn:H1.
    destruct (setup_trail side b xb w1 i1) as [w2 i2] eqn:H2.
    injection H as <- _.
    destruct (setup_trail_trails side a xa w
                (map trail_id (filter (is_inactive_side want_left) snapshot))) as [L1 I1].
    destruct (setup_trail_trails side b xb w1 i1) as [L2 _].
    rewrite H1 in L1, I1; rewrite H2 in L2; cbn [fst snd] in L1, L2, I1.
    rewrite L2, L1; subst i1.
    destruct (map trail_id (filter (is_inactive_side want_left) snapshot))
      as [| e1 [| e2 rest]]; cbn [tl length Nat.min]; lia.
  - unfold spawn_single in H; destruct (caster_get _ _ rng) as [[x r] |]; [| discriminate].
    injection H as <- _; cbn; rewrite length_app; cbn; lia.
  - unfold spawn_single in H; destruct (caster_get _ _ rng) as [[x r] |]; [| discriminate].
    injection H as <- _; cbn; rewrite length_app; cbn; lia.
  - injection H as <- _; lia.
Qed.

(** ** Timers *)

Section TimerFacts.
Local Open Scope N_scope.

(** The spawner's repeating timer, ticked from a remainder below its
    period, counts the periods the tick crosses and keeps the rest: as long
    as fewer than [2^32] periods are crossed, the new elapsed time is the
    total modulo the period, and the timer fires exactly when the total
    reaches the period. *)
Theorem timer_tick_periods (delta : N) (t : Timer) :
  0 < t_duration t -> t_elapsed t < t_duration t ->
  (t_elapsed t + delta) / t_duration t <= u32_max ->
  t_duration (timer_tick delta t) = t_duration t /\
  t_elapsed (timer_tick delta t) = (t_elapsed t + delta) mod t_duration t /\
  t_times_finished_this_tick (timer_tick delta t) = (t_elapsed t + delta) / t_duration t /\
  t_elapsed (timer_tick delta t) < t_duration t /\
  just_finished (timer_tick delta t) = N.leb (t_duration t) (t_elapsed t + delta).
Proof.
  intros HD He Hb; unfold timer_tick, just_finished.
  set (d := t_duration t) in *; set (e := t_elapsed t + delta) in *.
  destruct (N.leb d e) eqn:Hle.
  - apply N.leb_le in Hle.
    assert (Hd0 : N.eqb d 0 = false) by (apply N.eqb_neq; lia).
    rewrite Hd0.
    rewrite (N.mod_small (e / d)) by (unfold u32_max in *; lia).
    assert (Hq : 0 < e / d) by (apply N.div_str_pos; lia).
    cbn [t_duration t_elapsed t_times_finished_this_tick].
    split; [reflexivity | split; [reflexivity | split; [reflexivity | split]]].
    + apply N.mod_lt; lia.
    + apply negb_true_iff, N.eqb_neq; lia.
  - apply N.leb_gt in Hle; cbn [t_duration t_elapsed t_times_finished_this_tick].
    rewrite N.mod_small, N.div_small by lia.
    split; [reflexivity | split; [reflexivity | split; [reflexivity | split; [lia |]]]].
    reflexivity.
Qed.

(** A single tick that crosses exactly [2^32] periods wraps the completion
    count to zero: the timer is marked finished but does not report
    [just_finished]; its elapsed time is still the total modulo the
    period. *)
Theorem timer_tick_wraps (delta : N) (t : Timer) :
  0 < t_duration t -> (t_elapsed t + delta) / t_duration t = u32_max + 1 ->
  just_finished (timer_tick delta t) = false /\ t_finished (timer_tick delta t) = true /\
  t_elapsed (timer_tick delta t) = (t_elapsed t + delta) mod t_duration t.
Proof.
  intros HD Hq; unfold timer_tick, just_finished.
  set (d := t_duration t) in *; set (e := t_elapsed t + delta) in *.
  assert (Hle : d <= e).
  { destruct (N.le_gt_cases d e) as [H | H]; [exact H |].
    rewrite N.div_small in Hq by exact H; unfold u32_max in Hq; lia. }
  apply N.leb_le in Hle; rewrite Hle.
  assert (Hd0 : N.eqb d 0 = false) by (apply N.eqb_neq; lia).
  rewrite Hd0, Hq, N.Div0.mod_same.
  cbn; split; [reflexivity | split; reflexivity].
Qed.

(** A timer of zero duration fires on every tick: [checked_div] and
    [checked_rem] fail, so it reports [u32::MAX] completions and its
    elapsed time drops to zero. *)
Theorem timer_tick_zero_duration (delta : N) (t : Timer) :
  t_duration t = 0 ->
  t_finished (timer_tick delta t) = true /\
  t_times_finished_this_tick (timer_tick delta t) = u32_max /\
  t_elapsed (timer_tick delta t) = 0 /\
  just_finished (timer_tick delta t) = true.
Proof.
  intros HD; unfold timer_tick, just_finished; rewrite HD.
  replace (0 <=? t_elapsed t + delta) with true by (symmetry; apply N.leb_le; lia).
  cbn; split; [reflexivity | split; [reflexivity | split; reflexivity]].
Qed.

Lemma run_auto_finished (deltas : list N) (t : Timer) :
  t_finished t = true -> run_auto_elimination t deltas = [].
Proof.
  revert t; induction deltas as [| d ds IH]; intros t Ht; [reflexivity |].
  cbn [run_auto_elimination]; unfold auto_elimination, timer_tick_once; rewrite Ht.
  cbn [just_finished t_times_finished_this_tick N.eqb negb app].
  apply IH; reflexivity.
Qed.

Lemma run_auto_pending (deltas : list N) (t : Timer) :
  t_finished t = false -> t_elapsed t < t_duration t ->
  run_auto_elimination t deltas =
    if N.leb (t_duration t) (t_elapsed t + total_delta deltas) then [A; B; C] else [].
Proof.
  revert t; induction deltas as [| d ds IH]; intros t Hf He.
  - cbn [run_auto_elimination total_delta fold_right].
    replace (N.leb (t_duration t) (t_elapsed t + 0)) with false; [reflexivity |].
    symmetry; apply N.leb_gt; lia.
  - cbn [run_auto_elimination]; unfold auto_elimination, timer_tick_once; rewrite Hf.
    destruct (N.leb (t_duration t) (t_elapsed t + d)) eqn:Hle.
    + rewrite run_auto_finished by reflexivity.
      apply N.leb_le in Hle.
      replace (N.leb (t_duration t) (t_elapsed t + total_delta (d :: ds))) with true;
        [reflexivity |].
      symmetry; apply N.leb_le; cbn [total_delta fold_right] in *; lia.
    + apply N.leb_gt in Hle.
      rewrite IH by (cbn; first [reflexivity | lia]).
      cbn [t_duration t_elapsed just_finished t_times_finished_this_tick N.eqb negb app].
      cbn [total_delta fold_right]; rewrite N.add_assoc; reflexivity.
Qed.

(** [auto_elimination] with the default [AutoTimer] sends the eliminations
    of A, B and C exactly once, on the first frame at which ten seconds have
    elapsed in total, and nothing before or after that. *)
Theorem auto_elimination_once (deltas : list N) :
  run_auto_elimination auto_timer_default deltas =
    if N.leb AUTO_TIMER_NS (total_delta deltas) then [A; B; C] else [].
Proof.
  apply run_auto_pending; reflexivity.
Qed.

End TimerFacts.

(** ** Colour packing of [auto_hanabi] *)

Section ColorFacts.
Local Open Scope Z_scope.

Lemma lor_low_add (hi lo k : Z) :
  0 <= k -> 0 <= lo < 2 ^ k -> Z.lor (hi * 2 ^ k) lo = hi * 2 ^ k + lo.
Proof.
  intros Hk Hlo.
  assert (Hl : Z.land (hi * 2 ^ k) lo = 0).
  { rewrite <- (Z.mod_small lo (2 ^ k)) by lia.
    rewrite <- Z.land_ones by lia.
    rewrite (Z.land_comm lo), Z.land_assoc, Z.land_ones by lia.
    rewrite Z.mod_mul by (apply Z.pow_nonzero; lia).
    apply Z.land_0_l. }
  pose proof (Z.add_lor_land (hi * 2 ^ k) lo) as H; rewrite Hl in H; lia.
Qed.

Lemma lor_shift_common (x y k : Z) :
  0 <= k -> Z.lor (x * 2 ^ k) (y * 2 ^ k) = Z.lor x y * 2 ^ k.
Proof.
  intros Hk; rewrite <- !Z.shiftl_mul_pow2 by exact Hk.
  symmetry; apply Z.shiftl_lor.
Qed.

Lemma shl_u32_small (x n : Z) :
  0 <= n -> 0 <= x -> x * 2 ^ n < 2 ^ 32 -> shl_u32 x n = x * 2 ^ n.
Proof.
  intros Hn Hx Hb; unfold shl_u32.
  rewrite Z.shiftl_mul_pow2, Z.land_ones by lia.
  apply Z.mod_small; split; [apply Z.mul_nonneg_nonneg; [lia | apply Z.pow_nonneg; lia] | exact Hb].
Qed.

Lemma pack_bytes (r g b : Z) :
  0 <= r < 256 -> 0 <= g < 256 -> 0 <= b < 256 ->
  Z.lor (Z.lor (Z.lor 4278190080 (shl_u32 b 16)) (shl_u32 g 8)) r =
    ((255 * 256 + b) * 256 + g) * 256 + r.
Proof.
  intros Hr Hg Hb.
  rewrite (shl_u32_small b 16), (shl_u32_small g 8) by (cbn [Z.pow Z.pow_pos]; lia).
  change 4278190080 with ((255 * 2 ^ 8) * 2 ^ 16).
  rewrite lor_shift_common by lia.
  rewrite (lor_low_add 255 b 8) by (cbn; lia).
  change (2 ^ 16) with (2 ^ 8 * 2 ^ 8); rewrite Z.mul_assoc.
  rewrite lor_shift_common by lia.
  rewrite (lor_low_add (255 * 2 ^ 8 + b) g 8) by (cbn; lia).
  rewrite (lor_low_add ((255 * 2 ^ 8 + b) * 2 ^ 8 + g) r 8) by (cbn; lia).
  reflexivity.
Qed.

Lemma byte_at_div (x k : Z) : 0 <= k -> byte_at x k = (x / 2 ^ (8 * k)) mod 256.
Proof.
  intros Hk; unfold byte_at.
  change 255 with (Z.ones 8).
  rewrite Z.land_ones, Z.shiftr_div_pow2 by lia; reflexivity.
Qed.

Lemma digit_div (a c : Z) : 0 <= c < 256 -> (a * 256 + c) / 256 = a.
Proof. intros Hc; rewrite Z.div_add_l, Z.div_small by lia; lia. Qed.

Lemma digit_mod (a c : Z) : 0 <= c < 256 -> (a * 256 + c) mod 256 = c.
Proof. intros Hc; rewrite Z.add_comm, Z.mod_add by lia; apply Z.mod_small; lia. Qed.

Lemma as_u32_channel (c : Q) :
  (0 <= c <= 1)%Q -> as_u32 (c * 255) = Qfloor (c * 255) /\ 0 <= Qfloor (c * 255) < 256.
Proof.
  intros Hc.
  assert (H1 : Qfloor (c * 255) <= 255).
  { rewrite Zle_Qle; eapply Qle_trans; [apply Qfloor_le |].
    unfold inject_Z; lra. }
  assert (H0 : 0 <= Qfloor (c * 255)).
  { pose proof (Qlt_floor (c * 255)) as Hl; rewrite inject_Z_plus in Hl.
    change (inject_Z 1) with 1%Q in Hl.
    assert (Hm : (-1 < inject_Z (Qfloor (c * 255)))%Q) by lra.
    change (-1)%Q with (inject_Z (-1)) in Hm.
    rewrite <- Zlt_Qlt in Hm; lia. }
  unfold as_u32; split; [| lia].
  change (Z.ones 32) with 4294967295; rewrite Z.min_r by lia; lia.
Qed.

(** The colour [auto_hanabi] hands to the particle effect round-trips
    through its bytes: for channels in [0, 1], byte 3 is the opaque alpha
    [0xFF], bytes 2, 1 and 0 are the blue, green and red channels scaled to
    [0..255] (truncated), and the value fits in a [u32]. *)
Theorem pack_color_roundtrip (red green blue : Q) :
  (0 <= red <= 1)%Q -> (0 <= green <= 1)%Q -> (0 <= blue <= 1)%Q ->
  byte_at (pack_color red green blue) 3 = 255 /\
  byte_at (pack_color red green blue) 2 = Qfloor (blue * 255) /\
  byte_at (pack_color red green blue) 1 = Qfloor (green * 255) /\
  byte_at (pack_color red green blue) 0 = Qfloor (red * 255) /\
  0 <= pack_color red green blue < 2 ^ 32.
Proof.
  intros Hr Hg Hb.
  destruct (as_u32_channel _ Hr) as [Er Br].
  destruct (as_u32_channel _ Hg) as [Eg Bg].
  destruct (as_u32_channel _ Hb) as [Eb Bb].
  set (r := Qfloor (red * 255)) in *; set (g := Qfloor (green * 255)) in *;
    set (b := Qfloor (blue * 255)) in *.
  unfold pack_color; rewrite Er, Eg, Eb, pack_bytes by lia.
  rewrite !byte_at_div by lia.
  change (2 ^ (8 * 3)) with 16777216; change (2 ^ (8 * 2)) with 65536;
  change (2 ^ (8 * 1)) with 256; change (2 ^ (8 * 0)) with 1; change (255 * 256) with 65280.
  change (2 ^ 32) with 4294967296.
  refine (conj _ (conj _ (conj _ (conj _ _)))); rewrite ?Z.div_1_r; clearbody r g b;
    change (65280 + b) with (255 * 256 + b).
  - change 16777216 with (256 * 256 * 256); rewrite <- !Z.div_div by lia.
    rewrite !digit_div by lia; reflexivity.
  - change 65536 with (256 * 256); rewrite <- !Z.div_div by lia.
    rewrite !digit_div by lia; apply digit_mod; lia.
  - rewrite digit_div by lia; apply digit_mod; lia.
  - apply digit_mod; lia.
  - lia.
Qed.

(** A red channel above [1.0] is not clamped to a byte: when it scales to
    [256..511] and green is zero, its ninth bit lands in the green byte. *)
Theorem pack_color_red_overflow (red blue : Q) :
  (256 <= red * 255 < 512)%Q -> (0 <= blue <= 1)%Q ->
  byte_at (pack_color red 0 blue) 1 = 1.
Proof.
  intros Hr Hb.
  destruct (as_u32_channel _ Hb) as [Eb Bb].
  assert (Fr : 256 <= Qfloor (red * 255) < 512).
  { split.
    - change 256 with (Qfloor 256); apply Qfloor_resp_le; lra.
    - rewrite Zlt_Qlt; eapply Qle_lt_trans; [apply Qfloor_le |].
      unfold inject_Z; lra. }
  assert (Er : as_u32 (red * 255) = Qfloor (red * 255)).
  { unfold as_u32; change (Z.ones 32) with 4294967295; rewrite Z.min_r by lia; lia. }
  unfold pack_color; rewrite Er, Eb.
  set (r := Qfloor (red * 255)) in *; set (b := Qfloor (blue * 255)) in *.
  change (as_u32 (0 * 255)) with 0.
  change (shl_u32 0 8) with 0; rewrite Z.lor_0_r.
  rewrite (shl_u32_small _ 16) by (change (2 ^ 16) with 65536; change (2 ^ 32) with 4294967296; lia).
  change 4278190080 with ((255 * 2 ^ 8) * 2 ^ 16).
  rewrite lor_shift_common, (lor_low_add 255 _ 8) by (change (2 ^ 8) with 256; lia).
  rewrite (lor_low_add _ _ 16) by (change (2 ^ 16) with 65536; lia).
  rewrite byte_at_div by lia.
  change (2 ^ (8 * 1)) with 256; change (2 ^ 8) with 256; change (2 ^ 16) with 65536.
  clearbody r b.
  replace ((255 * 256 + b) * 65536 + r) with (((255 * 256 + b) * 256 + 1) * 256 + (r - 256)) by ring.
  rewrite digit_div by lia; apply digit_mod; lia.
Qed.

End ColorFacts.

(** ** [ObstacleBundleBuilder::build] *)

(** Every [circle_builder.clone().xy(x, y).buildtmb()] of [setup] succeeds
    (the [unwrap] never panics), at depth [CIRCLE_Z], whatever [x] and [y];
    likewise for the trigger-zone dividers at [TRIGGER_ZONE_DIVIDER_Z]. *)
Theorem setup_buildtmb_total {CM Me Co Na : Type} (x y : Q) (n : Na) (m : CM)
  (me : Me) (c : Co) (PB PO : Z) :
  build PB PO (builder_xy x y (circle_builder n m me c)) =
    Some {| ob_mesh := me; ob_material := m; ob_transform := (x, y, CIRCLE_Z);
            ob_collider := c;
            ob_collision_groups := {| memberships := PO; filters := PB |};
            ob_rigidbody := Fixed; ob_name := n |} /\
  build PB PO (builder_xy x y (divider_builder n m me c)) =
    Some {| ob_mesh := me; ob_material := m; ob_transform := (x, y, TRIGGER_ZONE_DIVIDER_Z);
            ob_collider := c;
            ob_collision_groups := {| memberships := PO; filters := PB |};
            ob_rigidbody := Fixed; ob_name := n |}.
Proof. split; reflexivity. Qed.

(** ** Who collides with whom *)

Section GroupFacts.
Local Open Scope Z_scope.

Variables PANEL_BALLS PANEL_OBSTACLES PANEL_TRIGGER_ZONES : Z.
Hypothesis HB : PANEL_BALLS <> 0.
Hypothesis HBO : Z.land PANEL_BALLS PANEL_OBSTACLES = 0.
Hypothesis HBT : Z.land PANEL_BALLS PANEL_TRIGGER_ZONES = 0.

Lemma groups_zero_facts :
  (PANEL_BALLS =? 0) = false /\ Z.land PANEL_OBSTACLES PANEL_BALLS = 0 /\
  Z.land PANEL_TRIGGER_ZONES PANEL_BALLS = 0.
Proof.
  split; [apply Z.eqb_neq; exact HB |].
  rewrite (Z.land_comm PANEL_OBSTACLES), (Z.land_comm PANEL_TRIGGER_ZONES); auto.
Qed.

Lemma worker_filter_meets_balls :
  Z.land PANEL_BALLS (Z.lor (Z.lor PANEL_BALLS PANEL_OBSTACLES) PANEL_TRIGGER_ZONES) =
    PANEL_BALLS.
Proof.
  rewrite !Z.land_lor_distr_r, Z.land_diag, HBO, HBT, !Z.lor_0_r; reflexivity.
Qed.

End GroupFacts.

(** With the group bits nonzero and pairwise disjoint, two bodies of a panel
    interact exactly when one of them is a worker ball: balls meet balls,
    obstacles, panel roots and trigger zones, and the fixed bodies never
    meet each other. *)
Theorem body_groups_interact (B O T : Z) :
  B <> 0%Z -> O <> 0%Z -> T <> 0%Z ->
  Z.land B O = 0%Z -> Z.land B T = 0%Z -> Z.land O T = 0%Z ->
  forall k1 k2 : Body,
    interacts (body_groups B O T k1) (body_groups B O T k2) =
      is_worker_ball k1 || is_worker_ball k2.
Proof.
  intros HB HO HT HBO HBT HOT k1 k2.
  destruct (groups_zero_facts B O T HB HBO HBT) as (EB & HOB & HTB).
  assert (HTO : Z.land T O = 0%Z) by (rewrite Z.land_comm; exact HOT).
  apply Z.eqb_neq in HO, HT.
  destruct k1, k2; unfold interacts; cbn [body_groups memberships filters is_worker_ball orb];
    rewrite ?Z.land_lor_distr_r, ?Z.land_diag, ?HBO, ?HBT, ?HOB, ?HTB, ?HOT, ?HTO,
      ?Z.lor_0_l, ?Z.lor_0_r, ?EB, ?HO, ?HT; reflexivity.
Qed.

(** The [QueryFilter] of [WorkerBallShapeCaster::get] only sees worker
    balls: obstacles, panel roots and trigger zones never block a spawn
    point (the only precondition is that the ball bits are nonzero and
    disjoint from the others). *)
Theorem caster_filter_sees_balls_only (B O T : Z) :
  B <> 0%Z -> Z.land B O = 0%Z -> Z.land B T = 0%Z ->
  forall k : Body,
    interacts (caster_filter_groups B) (body_groups B O T k) = is_worker_ball k.
Proof.
  intros HB HBO HBT k.
  destruct (groups_zero_facts B O T HB HBO HBT) as (EB & HOB & HTB).
  pose proof (worker_filter_meets_balls B O T HBO HBT) as W.
  destruct k; unfold interacts; cbn [caster_filter_groups body_groups memberships filters is_worker_ball];
    rewrite ?W, ?Z.land_diag, ?HOB, ?HTB, ?HBO, ?HBT, ?EB; reflexivity.
Qed.

(** ** Trigger zone labels *)

Lemma decimal_injective_below (n a b : nat) :
  Labels.decimal_roundtrip_below n = true -> (a < n)%nat -> (b < n)%nat ->
  Labels.decimal a = Labels.decimal b -> a = b.
Proof.
  intros Hc Ha Hb H; unfold Labels.decimal_roundtrip_below in Hc.
  rewrite forallb_forall in Hc.
  pose proof (Hc a (proj2 (in_seq n 0 a) (conj (Nat.le_0_l a) Ha))) as Ea.
  pose proof (Hc b (proj2 (in_seq n 0 b) (conj (Nat.le_0_l b) Hb))) as Eb.
  apply Nat.eqb_eq in Ea, Eb; rewrite H in Ea; congruence.
Qed.

(** [TriggerType]'s [Display] tells the zone kinds apart: two trigger types
    with [u8] factors that print the same are equal. *)
Theorem trigger_label_injective (t1 t2 : TriggerType) :
  factor_fits t1 -> factor_fits t2 ->
  Labels.trigger_label t1 = Labels.trigger_label t2 -> t1 = t2.
Proof.
  assert (Hc : Labels.decimal_roundtrip_below 256 = true) by (vm_compute; reflexivity).
  destruct t1 as [a| |], t2 as [b| |]; cbn [factor_fits]; intros Ha Hb H;
    cbn [Labels.trigger_label Labels.nl String.append] in H.
  (* the labels of different kinds differ in their first or ninth character *)
  2-9: first
    [ reflexivity
    | exfalso; apply (f_equal (String.get 0)) in H; cbn [String.get] in H; discriminate H
    | exfalso; apply (f_equal (String.get 8)) in H; cbn [String.get] in H; discriminate H ].
  injection H as H.
  f_equal; exact (decimal_injective_below 256 a b Hc Ha Hb H).
Qed.

(** ** Layout of the panel *)

Lemma pairwise_nth {X : Type} (f : X -> X -> bool) (l : list X) :
  pairwise f l = true ->
  forall i j x y, (i < j)%nat -> nth_error l i = Some x -> nth_error l j = Some y ->
  f x y = true.
Proof.
  induction l as [| a l IH]; intros H i j x y Hij Hi Hj.
  - destruct i; discriminate.
  - cbn [pairwise] in H; apply andb_true_iff in H as [H1 H2].
    destruct i as [| i], j as [| j]; try lia.
    + cbn in Hi, Hj; injection Hi as <-.
      rewrite forallb_forall in H1; apply H1; eapply nth_error_In; eauto.
    + cbn in Hi, Hj; apply (IH H2 i j); auto; lia.
Qed.

Lemma Qlt_bool_iff (x y : Q) : Qlt_bool x y = true <-> x < y.
Proof.
  unfold Qlt_bool; rewrite negb_true_iff; split; intros H.
  - apply Qnot_le_lt; intros Hle; apply Qle_bool_iff in Hle; congruence.
  - destruct (Qle_bool y x) eqn:E; [apply Qle_bool_iff in E; lra | reflexivity].
Qed.

Lemma forallb_In {X : Type} (f : X -> bool) (l : list X) (x : X) :
  forallb f l = true -> In x l -> f x = true.
Proof. intros H; rewrite forallb_forall in H; auto. Qed.

(** The circle obstacles are symmetric about the panel's vertical axis:
    every one has its mirror image among them. *)
Theorem circle_layout_mirror (p : Q * Q) :
  In p circle_layout ->
  exists q, In q circle_layout /\ fst q == - fst p /\ snd q == snd p.
Proof.
  intros Hp.
  assert (C : forallb (fun p => existsb (fun q =>
    Qeq_bool (fst q) (- fst p) && Qeq_bool (snd q) (snd p)) circle_layout)
    circle_layout = true) by (vm_compute; reflexivity).
  pose proof (forallb_In _ _ _ C Hp) as E; cbv beta in E.
  apply existsb_exists in E as (q & Hq & E).
  apply andb_true_iff in E as [E1 E2]; apply Qeq_bool_iff in E1, E2; eauto.
Qed.

(** Any two circle obstacles are far enough apart for a worker ball to pass
    between them: their centres are at least two circle radii plus a ball
    diameter apart. *)
Theorem circle_layout_gaps (i j : nat) (p q : Q * Q) :
  (i < j)%nat -> nth_error circle_layout i = Some p -> nth_error circle_layout j = Some q ->
  (2 * CIRCLE_RADIUS + WORKER_BALL_DIAMETER) * (2 * CIRCLE_RADIUS + WORKER_BALL_DIAMETER)
    <= dist2 p q.
Proof.
  intros Hij Hi Hj.
  assert (C : pairwise (fun p q => Qle_bool
    ((2 * CIRCLE_RADIUS + WORKER_BALL_DIAMETER) * (2 * CIRCLE_RADIUS + WORKER_BALL_DIAMETER))
    (dist2 p q)) circle_layout = true) by (vm_compute; reflexivity).
  apply Qle_bool_iff; exact (pairwise_nth _ _ C i j p q Hij Hi Hj).
Qed.

(** Every circle centre lies within the arena's width, and the circles lie
    strictly between the trigger zones below and the worker balls spawned
    above. *)
Theorem circle_layout_bounds (p : Q * Q) :
  In p circle_layout ->
  Qabs (fst p) <= ARENA_WIDTH_FRAC_2 /\
  TRIGGER_ZONE_Y + TRIGGER_ZONE_HEIGHT / 2 < snd p - CIRCLE_RADIUS /\
  snd p + CIRCLE_RADIUS < WORKER_BALL_SPAWN_Y - WORKER_BALL_RADIUS.
Proof.
  intros Hp.
  assert (C : forallb (fun p =>
    Qle_bool (Qabs (fst p)) ARENA_WIDTH_FRAC_2 &&
    Qlt_bool (TRIGGER_ZONE_Y + TRIGGER_ZONE_HEIGHT / 2) (snd p - CIRCLE_RADIUS) &&
    Qlt_bool (snd p + CIRCLE_RADIUS) (WORKER_BALL_SPAWN_Y - WORKER_BALL_RADIUS))
    circle_layout = true) by (vm_compute; reflexivity).
  pose proof (forallb_In _ _ _ C Hp) as E; cbv beta in E.
  apply andb_true_iff in E as [E E3]; apply andb_true_iff in E as [E1 E2].
  apply Qle_bool_iff in E1; apply Qlt_bool_iff in E2, E3; auto.
Qed.

(** The five trigger zones, each [ARENA_WIDTH_FRAC_5] wide, lie inside the
    arena and together cover its whole width: a ball reaching the bottom at
    any [x] of the arena is over some trigger zone. *)
Theorem trigger_zones_tile :
  (forall z, In z trigger_zone_layout ->
     - ARENA_WIDTH_FRAC_2 <= snd z - ARENA_WIDTH_FRAC_5 / 2 /\
     snd z + ARENA_WIDTH_FRAC_5 / 2 <= ARENA_WIDTH_FRAC_2) /\
  (forall x, - ARENA_WIDTH_FRAC_2 <= x <= ARENA_WIDTH_FRAC_2 ->
     exists z, In z trigger_zone_layout /\
       snd z - ARENA_WIDTH_FRAC_5 / 2 <= x <= snd z + ARENA_WIDTH_FRAC_5 / 2).
Proof.
  assert (E : ARENA_WIDTH_FRAC_5 == 52) by reflexivity.
  assert (E2 : ARENA_WIDTH_FRAC_5 / 2 == 26) by reflexivity.
  unfold ARENA_WIDTH_FRAC_2; split.
  - intros z Hz; cbn [In trigger_zone_layout] in Hz.
    repeat destruct Hz as [<- | Hz]; cbn [snd]; try contradiction; rewrite E2; split; lra.
  - intros x [Hl Hh].
    destruct (Qlt_le_dec x (-78)) as [H1 | H1].
    { exists (BurstShot, -2 * ARENA_WIDTH_FRAC_5); cbn [In trigger_zone_layout snd].
      split; [tauto | rewrite E2; split; lra]. }
    destruct (Qlt_le_dec x (-26)) as [H2 | H2].
    { exists (Multiply 2, - ARENA_WIDTH_FRAC_5); cbn [In trigger_zone_layout snd].
      split; [tauto | rewrite E2; split; lra]. }
    destruct (Qlt_le_dec x 26) as [H3 | H3].
    { exists (Multiply 4, 0); cbn [In trigger_zone_layout snd].
      split; [tauto | rewrite E2; split; lra]. }
    destruct (Qlt_le_dec x 78) as [H4 | H4].
    { exists (Multiply 2, ARENA_WIDTH_FRAC_5); cbn [In trigger_zone_layout snd].
      split; [tauto | rewrite E2; split; lra]. }
    exists (ChargedShot, 2 * ARENA_WIDTH_FRAC_5); cbn [In trigger_zone_layout snd].
    split; [tauto | rewrite E2; split; lra].
Qed.

(** The trigger zones do not overlap: the centres of any two of them are at
    least a zone's width apart. *)
Theorem trigger_zones_disjoint (i j : nat) (z1 z2 : TriggerType * Q) :
  (i < j)%nat -> nth_error trigger_zone_layout i = Some z1 ->
  nth_error trigger_zone_layout j = Some z2 ->
  ARENA_WIDTH_FRAC_5 <= Qabs (snd z1 - snd z2).
Proof.
  intros Hij Hi Hj.
  assert (C : pairwise (fun z1 z2 => Qle_bool ARENA_WIDTH_FRAC_5 (Qabs (snd z1 - snd z2)))
    trigger_zone_layout = true) by (vm_compute; reflexivity).
  apply Qle_bool_iff; exact (pairwise_nth _ _ C i j z1 z2 Hij Hi Hj).
Qed.

(** The four dividers sit exactly on the edges shared by two neighbouring
    trigger zones, and every such edge has a divider. *)
Theorem dividers_on_zone_edges :
  (forall d, In d divider_xs ->
     exists z1 z2, In z1 trigger_zone_layout /\ In z2 trigger_zone_layout /\
       snd z1 + ARENA_WIDTH_FRAC_5 / 2 == d /\ snd z2 - ARENA_WIDTH_FRAC_5 / 2 == d) /\
  (forall z1 z2, In z1 trigger_zone_layout -> In z2 trigger_zone_layout ->
     snd z1 + ARENA_WIDTH_FRAC_5 / 2 == snd z2 - ARENA_WIDTH_FRAC_5 / 2 ->
     exists d, In d divider_xs /\ d == snd z1 + ARENA_WIDTH_FRAC_5 / 2).
Proof.
  split.
  - intros d Hd.
    assert (C : forallb (fun d =>
      existsb (fun z => Qeq_bool (snd z + ARENA_WIDTH_FRAC_5 / 2) d) trigger_zone_layout &&
      existsb (fun z => Qeq_bool (snd z - ARENA_WIDTH_FRAC_5 / 2) d) trigger_zone_layout)
      divider_xs = true) by (vm_compute; reflexivity).
    pose proof (forallb_In _ _ _ C Hd) as E; cbv beta in E.
    apply andb_true_iff in E as [E1 E2].
    apply existsb_exists in E1 as (z1 & H1 & E1), E2 as (z2 & H2 & E2).
    apply Qeq_bool_iff in E1, E2; eauto 6.
  - intros z1 z2 H1 H2 Heq.
    assert (C : forallb (fun z1 => forallb (fun z2 =>
      implb (Qeq_bool (snd z1 + ARENA_WIDTH_FRAC_5 / 2) (snd z2 - ARENA_WIDTH_FRAC_5 / 2))
        (existsb (fun d => Qeq_bool d (snd z1 + ARENA_WIDTH_FRAC_5 / 2)) divider_xs))
      trigger_zone_layout) trigger_zone_layout = true) by (vm_compute; reflexivity).
    pose proof (forallb_In _ _ _ (forallb_In _ _ _ C H1) H2) as E; cbv beta in E.
    apply Qeq_bool_iff in Heq; rewrite Heq in E; cbn [implb] in E.
    apply existsb_exists in E as (d & Hd & E); apply Qeq_bool_iff in E; eauto.
Qed.

(** ** Trails follow worker balls *)

Lemma existsb_trail_id (ts : list Trail) (e : Entity) :
  existsb (fun t => Nat.eqb (trail_id t) e) ts =
  existsb (fun i => Nat.eqb i e) (map trail_id ts).
Proof. induction ts as [| t ts IH]; simpl; [reflexivity | rewrite IH; reflexivity]. Qed.

Lemma static_transform_same (w w' : World) (e : Entity) :
  map trail_id (trails w') = map trail_id (trails w) -> statics w' = statics w ->
  static_transform w' e = static_transform w e.
Proof.
  intros Ht Hs; unfold static_transform; rewrite !existsb_trail_id, Ht, Hs; reflexivity.
Qed.

Lemma static_transform_app (w w' : World) (t : Trail) (e : Entity) :
  trails w' = trails w ++ [t] -> statics w' = statics w -> trail_id t <> e ->
  static_transform w' e = static_transform w e.
Proof.
  intros Ht Hs Hne; unfold static_transform; rewrite Ht, Hs, existsb_app; cbn [existsb].
  replace (Nat.eqb (trail_id t) e) with false by (symmetry; apply Nat.eqb_neq; exact Hne).
  rewrite orb_false_r; reflexivity.
Qed.

Lemma static_transform_fresh (w : World) :
  links_ok w -> static_transform w (next_entity w) = None.
Proof.
  intros (_ & Ht & Hs); unfold static_transform.
  destruct (existsb _ _) eqn:E.
  - apply existsb_exists in E as (t & Hin & Heq); apply Nat.eqb_eq in Heq.
    rewrite Forall_forall in Ht; specialize (Ht t Hin); lia.
  - destruct (find _ _) as [[i q] |] eqn:F; [| reflexivity].
    apply find_some in F as [Hin Heq]; apply Nat.eqb_eq in Heq; cbn in Heq.
    rewrite Forall_forall in Hs; specialize (Hs _ Hin); cbn in Hs; lia.
Qed.

Lemma links_ok_mono (w w' : World) :
  trails w' = trails w -> statics w' = statics w ->
  (next_entity w <= next_entity w')%nat -> links_ok w -> links_ok w'.
Proof.
  intros Ht Hs Hn (L & T & Sx); unfold links_ok, links_to_balls in *.
  rewrite Ht, Hs; split; [| split].
  - eapply Forall_impl; [| exact L]; intros t Hl; cbv beta in Hl |- *.
    destruct (trail_link t); [| exact I].
    rewrite (static_transform_same w w'); [exact Hl | rewrite Ht; reflexivity | exact Hs].
  - eapply Forall_impl; [| exact T]; intros t [H1 H2]; split; [lia |].
    destruct (trail_link t); [lia | exact I].
  - eapply Forall_impl; [| exact Sx]; intros q Hq; cbv beta in *; lia.
Qed.

Lemma links_ok_add_trail (w : World) (t : Trail) :
  links_ok w -> trail_id t = next_entity w ->
  match trail_link t with
  | Active e => (e < next_entity w)%nat /\ static_transform w e = None
  | Inactive _ => True
  end ->
  links_ok (set_trails (trails w ++ [t]) (snd (fresh w))).
Proof.
  intros (L & T & Sx) Hid Hl.
  set (w' := set_trails (trails w ++ [t]) (snd (fresh w))).
  assert (Ht : trails w' = trails w ++ [t]) by reflexivity.
  assert (Hs : statics w' = statics w) by reflexivity.
  assert (Hn : next_entity w' = S (next_entity w)) by reflexivity.
  unfold links_ok, links_to_balls in *; rewrite Ht, Hs, Hn.
  split; [| split].
  - apply Forall_app; split.
    + apply Forall_forall; intros t0 Hin.
      rewrite Forall_forall in L, T; specialize (L t0 Hin); specialize (T t0 Hin).
      destruct (trail_link t0) as [e |]; [| exact I].
      rewrite (static_transform_app w w' t e Ht Hs) by lia; exact L.
    + constructor; [| constructor].
      destruct (trail_link t) as [e |]; [| exact I].
      destruct Hl as [He Hl].
      rewrite (static_transform_app w w' t e Ht Hs) by lia; exact Hl.
  - apply Forall_app; split.
    + eapply Forall_impl; [| exact T]; intros t0 [H1 H2]; cbv beta; split; [lia |].
      destruct (trail_link t0); [lia | exact I].
    + constructor; [| constructor]. cbv beta; split; [lia |].
      destruct (trail_link t); [lia | exact I].
  - eapply Forall_impl; [| exact Sx]; intros q Hq; cbv beta in *; lia.
Qed.

Lemma links_ok_update_trail (w : World) (id ball : Entity) (f : Trail -> Trail) :
  links_ok w -> (ball < next_entity w)%nat -> static_transform w ball = None ->
  (forall t, trail_id (f t) = trail_id t /\ trail_link (f t) = Active ball) ->
  links_ok (set_trails (update_trail id f (trails w)) w).
Proof.
  intros (L & T & Sx) Hb Hsb Hf.
  set (w' := set_trails (update_trail id f (trails w)) w).
  assert (Hm : map trail_id (trails w') = map trail_id (trails w)).
  { cbn [w' trails set_trails]; unfold update_trail; rewrite map_map.
    apply map_ext; intros t; destruct (Nat.eqb (trail_id t) id); [apply Hf | reflexivity]. }
  assert (Hst : forall e, static_transform w' e = static_transform w e)
    by (intros e; apply static_transform_same; [exact Hm | reflexivity]).
  unfold links_ok, links_to_balls in *; cbn [w' trails statics next_entity set_trails].
  fold w'; split; [| split].
  - apply Forall_forall; intros t' Hin; unfold update_trail in Hin.
    apply in_map_iff in Hin as (t & <- & Hin).
    rewrite Forall_forall in L; specialize (L t Hin).
    destruct (Nat.eqb (trail_id t) id).
    + destruct (Hf t) as [_ ->]; rewrite Hst; exact Hsb.
    + destruct (trail_link t); [rewrite Hst; exact L | exact I].
  - apply Forall_forall; intros t' Hin; unfold update_trail in Hin.
    apply in_map_iff in Hin as (t & <- & Hin).
    rewrite Forall_forall in T; specialize (T t Hin).
    destruct (Nat.eqb (trail_id t) id); [| exact T].
    destruct (Hf t) as [-> ->]; split; [apply T | exact Hb].
  - exact Sx.
Qed.

Lemma setup_trail_links (side : PanelRootSide) (p : Participant) (x : Q) (w : World)
  (iter : list Entity) :
  links_ok w -> links_ok (fst (setup_trail side p x w iter)).
Proof.
  intros Hok.
  set (w2 := set_balls (balls w ++ [new_ball (next_entity w) p side x]) (snd (fresh w))).
  assert (H2 : links_ok w2) by (apply (links_ok_mono w); [reflexivity | reflexivity | cbn; lia | exact Hok]).
  assert (Hb : static_transform w2 (next_entity w) = None).
  { rewrite (static_transform_same w w2) by reflexivity; exact (static_transform_fresh w Hok). }
  unfold setup_trail; cbn [fresh fst snd]; fold w2.
  destruct iter as [| tr iter'].
  - cbn [fst]. apply (links_ok_add_trail w2); [exact H2 | reflexivity |].
    cbn [new_trail trail_link]; split; [cbn; lia | exact Hb].
  - cbn [fst]. apply (links_ok_update_trail w2 tr (next_entity w)); [exact H2 | cbn; lia | exact Hb |].
    intros t; split; reflexivity.
Qed.

Lemma spawn_single_links (intersects : Q * Q -> bool) (side : PanelRootSide)
  (p : Participant) (w w' : World) (rng rng' : list Q) :
  spawn_single intersects side p w rng = Some (w', rng') -> links_ok w -> links_ok w'.
Proof.
  unfold spawn_single; destruct (caster_get _ _ _) as [[x r] |]; [| discriminate].
  intros H Hok; injection H as <- _.
  set (w2 := set_balls (balls w ++ [new_ball (next_entity w) p side x]) (snd (fresh w))).
  assert (H2 : links_ok w2) by (apply (links_ok_mono w); [reflexivity | reflexivity | cbn; lia | exact Hok]).
  assert (Hb : static_transform w2 (next_entity w) = None).
  { rewrite (static_transform_same w w2) by reflexivity; exact (static_transform_fresh w Hok). }
  cbn [fresh fst snd]; fold w2.
  apply (links_ok_add_trail w2); [exact H2 | reflexivity |].
  cbn [new_trail trail_link]; split; [cbn; lia | exact Hb].
Qed.

Lemma spawn_panel_links (intersects : Q * Q -> bool) (survivors : Participant -> bool)
  (snapshot : list Trail) (a b : Participant) (side : PanelRootSide) (want_left : bool)
  (w w' : World) (rng rng' : list Q) :
  spawn_panel intersects survivors snapshot a b side want_left w rng = Some (w', rng') ->
  links_ok w -> links_ok w'.
Proof.
  unfold spawn_panel; destruct (survivors a), (survivors b).
  - destruct (pair_draw _ _ _) as [[[xa xb] r] |]; [| discriminate].
    destruct (setup_trail side a xa w _) as [w1 i1] eqn:H1.
    destruct (setup_trail side b xb w1 i1) as [w2 i2] eqn:H2.
    intros H Hok; injection H as <- _.
    pose proof (setup_trail_links side a xa w
                  (map trail_id (filter (is_inactive_side want_left) snapshot)) Hok) as K1.
    rewrite H1 in K1; cbn [fst] in K1.
    pose proof (setup_trail_links side b xb w1 i1 K1) as K2.
    rewrite H2 in K2; exact K2.
  - intros H Hok; exact (spawn_single_links _ _ _ _ _ _ _ H Hok).
  - intros H Hok; exact (spawn_single_links _ _ _ _ _ _ _ H Hok).
  - intros H Hok; injection H as <- _; exact Hok.
Qed.

Lemma ball_reset_links (intersects : Q * Q -> bool) (w w' : World) (rng rng' : list Q)
  (evs : list CollisionEvent) :
  ball_reset intersects w rng evs = Some (w', rng') ->
  trails w' = trails w /\ statics w' = statics w /\ next_entity w' = next_entity w.
Proof.
  revert w rng; induction evs as [| ev evs IH]; intros w rng H; cbn [ball_reset] in H.
  - injection H as <- _; auto.
  - destruct (ball_reset_one intersects w rng ev) as [[w1 r1] |] eqn:H1; [| discriminate].
    destruct (IH _ _ H) as (E1 & E2 & E3); rewrite E1, E2, E3.
    unfold ball_reset_one in H1; destruct ev as [a b | a b]; [injection H1 as <- _; auto |].
    destruct (match zone_of w a with Some _ => Some b | None => _ end) as [e |];
      [| injection H1 as <- _; auto].
    destruct (find_ball w e) as [ball |]; [| injection H1 as <- _; auto].
    destruct (caster_get _ _ _) as [[x r] |]; [| discriminate].
    injection H1 as <- _; auto.
Qed.

(** Every active trail keeps following a worker ball (live or despawned):
    the trail update and [restart] never relink a trail, [ball_reset] only
    moves balls, and [spawn_workers] links each trail it spawns or reuses
    to the ball it has just spawned, an entity that is neither a trail nor
    a static entity. *)
Theorem panel_systems_keep_links (intersects : Q * Q -> bool)
  (survivors : Participant -> bool) (phase delta : N) (w : World) (rng : list Q)
  (evs : list CollisionEvent) :
  links_ok w ->
  links_ok (update_workers_particle_position w) /\
  links_ok (restart phase w) /\
  (forall w' rng', ball_reset intersects w rng evs = Some (w', rng') -> links_ok w') /\
  (forall w' rng', spawn_workers intersects survivors delta w rng = Some (w', rng') ->
     links_ok w').
Proof.
  intros Hok; split; [| split; [| split]].
  - pose proof (update_trails_shape w (go_left w) (trails w)) as H.
    assert (Ht : trails (update_workers_particle_position w) =
                 fst (update_trails w (go_left w) (trails w))).
    { unfold update_workers_particle_position.
      destruct (update_trails w (go_left w) (trails w)); reflexivity. }
    assert (Hn : next_entity (update_workers_particle_position w) = next_entity w).
    { unfold update_workers_particle_position.
      destruct (update_trails w (go_left w) (trails w)); reflexivity. }
    assert (Hs : statics (update_workers_particle_position w) = statics w).
    { unfold update_workers_particle_position.
      destruct (update_trails w (go_left w) (trails w)); reflexivity. }
    assert (Hm : map trail_id (trails (update_workers_particle_position w)) =
                 map trail_id (trails w))
      by (rewrite Ht; eapply Forall2_map_eq; [| exact H]; intros t t' Hx; apply Hx).
    destruct Hok as (L & T & Sx); unfold links_ok, links_to_balls in *.
    rewrite Hn, Hs; split; [| split; [| exact Sx]].
    + apply Forall_forall; intros t' Hin'.
      rewrite Ht in Hin'; destruct (Forall2_in_r _ _ _ _ H Hin') as (t & Hin & _ & _ & Ha & _).
      rewrite Forall_forall in L; specialize (L t Hin).
      destruct (trail_link t') as [e |] eqn:He; [| exact I].
      destruct (Ha e eq_refl) as (Hl & _); rewrite Hl in L.
      rewrite (static_transform_same w); [exact L | exact Hm | exact Hs].
    + apply Forall_forall; intros t' Hin'.
      rewrite Ht in Hin'; destruct (Forall2_in_r _ _ _ _ H Hin') as (t & Hin & Hid & _ & Ha & _).
      rewrite Forall_forall in T; specialize (T t Hin).
      rewrite Hid; split; [apply T |].
      destruct (trail_link t') as [e |] eqn:He; [| exact I].
      destruct (Ha e eq_refl) as (Hl & _); rewrite Hl in T; apply T.
  - pose proof (restart_trails_shape false (trails w)) as H.
    assert (Hm : map trail_id (trails (restart phase w)) = map trail_id (trails w)).
    { change (trails (restart phase w)) with (restart_trails false (trails w)).
      eapply Forall2_map_eq; [| exact H].
      intros t t' [[_ [s ->]] | [_ ->]]; reflexivity. }
    destruct Hok as (L & T & Sx); unfold links_ok, links_to_balls in *.
    change (trails (restart phase w)) with (restart_trails false (trails w)) in *.
    change (statics (restart phase w)) with (statics w).
    change (next_entity (restart phase w)) with (next_entity w).
    split; [| split; [| exact Sx]].
    + apply Forall_forall; intros t' Hin'.
      destruct (Forall2_in_r _ _ _ _ H Hin') as (t & Hin & [[_ [s ->]] | [_ ->]]);
        [exact I |].
      rewrite Forall_forall in L; specialize (L t Hin).
      destruct (trail_link t) as [e |]; [| exact I].
      rewrite (static_transform_same w); [exact L | exact Hm | reflexivity].
    + apply Forall_forall; intros t' Hin'.
      destruct (Forall2_in_r _ _ _ _ H Hin') as (t & Hin & [[_ [s ->]] | [_ ->]]);
        rewrite Forall_forall in T; specialize (T t Hin); [| exact T].
      split; [exact (proj1 T) | exact I].
  - intros w' rng' H; destruct (ball_reset_links _ _ _ _ _ _ H) as (E1 & E2 & E3).
    apply (links_ok_mono w); [exact E1 | exact E2 | lia | exact Hok].
  - intros w' rng' H; unfold spawn_workers in H.
    set (w0 := set_spawner {| timer := timer_tick delta (timer (spawner w));
                              counter := counter (spawner w) |} w) in H.
    assert (H0 : links_ok w0) by (apply (links_ok_mono w); [reflexivity | reflexivity | cbn; lia | exact Hok]).
    destruct (negb (just_finished _)); [injection H as <- _; exact H0 |].
    destruct (spawn_panel _ _ _ A B Left true w0 rng) as [[w1 r1] |] eqn:H1; [| discriminate].
    destruct (spawn_panel _ _ _ C D Right false w1 r1) as [[w2 r2] |] eqn:H2; [| discriminate].
    injection H as <- _.
    pose proof (spawn_panel_links _ _ _ _ _ _ _ _ _ _ _ H1 H0) as K1.
    pose proof (spawn_panel_links _ _ _ _ _ _ _ _ _ _ _ H2 K1) as K2.
    apply (links_ok_mono w2); [reflexivity | reflexivity | cbn; lia | exact K2].
Qed.

(** ** Witnesses of the further properties *)

Lemma demo_raw_draws : Forall raw_draw [1 # 4; 3 # 4].
Proof. repeat constructor; unfold raw_draw; lra. Qed.

Lemma trigger_event_sound_witness :
  kinds_disjoint demo_world /\
  In {| te_participant := A; te_trigger_type := Multiply 4 |}
    (trigger_event (zone_of demo_world) (ball_query demo_world) 0%nat [Started 1%nat 2%nat]) /\
  (0%nat = 0%nat /\ exists a b, In (Started a b) [Started 1%nat 2%nat] /\
     pairs_zone_ball demo_world a b (Multiply 4) A).
Proof.
  assert (Hin : In {| te_participant := A; te_trigger_type := Multiply 4 |}
    (trigger_event (zone_of demo_world) (ball_query demo_world) 0%nat [Started 1%nat 2%nat]))
    by (vm_compute; left; reflexivity).
  split; [exact demo_kinds_disjoint |]. split; [exact Hin |].
  exact (trigger_event_sound demo_world 0%nat [Started 1%nat 2%nat] _ demo_kinds_disjoint Hin).
Defined.

Lemma spawn_workers_new_balls_witness :
  Forall raw_draw [1 # 4; 3 # 4] /\
  exists w' rng',
    spawn_workers no_hit only_A_B 1000000000 demo_world [1 # 4; 3 # 4] = Some (w', rng') /\
    exists news, balls w' = balls demo_world ++ news /\
      Forall2 (fun p b => placed (for_participant p) p b) [A; B] news.
Proof.
  split; [exact demo_raw_draws |].
  destruct (spawn_workers no_hit only_A_B 1000000000 demo_world [1 # 4; 3 # 4])
    as [[w' r] |] eqn:Hs; [| vm_compute in Hs; discriminate].
  exists w', r; split; [reflexivity |].
  destruct (spawn_workers_new_balls no_hit only_A_B 1000000000 demo_world w'
              [1 # 4; 3 # 4] r demo_raw_draws Hs) as (news & Hb & Hf & _).
  exists news; split; [exact Hb | exact Hf].
Defined.

Lemma restart_then_update_all_idle_witness :
  links_to_balls toggle_world /\
  Forall (fun t => exists s, trail_link t = Inactive s /\ trail_color t = ColorNone /\
                             trail_pos t = (rest_x s, WORKER_BALL_SPAWN_Y))
    (trails (update_workers_particle_position (restart demo_phase toggle_world))).
Proof.
  assert (H : links_to_balls toggle_world) by (vm_compute; repeat constructor).
  split; [exact H | exact (restart_then_update_all_idle demo_phase toggle_world H)].
Defined.

Lemma panel_systems_keep_links_witness :
  links_ok toggle_world /\
  links_ok (update_workers_particle_position toggle_world) /\
  links_ok (restart demo_phase toggle_world).
Proof.
  assert (H : links_ok toggle_world).
  { unfold links_ok, links_to_balls; cbn.
    split; [repeat constructor | split; repeat constructor; cbn; lia]. }
  split; [exact H |].
  destruct (panel_systems_keep_links no_hit only_A_B demo_phase 1000000000 toggle_world
              [] [] H) as (H1 & H2 & _).
  split; [exact H1 | exact H2].
Defined.

Lemma spawn_panel_trail_count_witness :
  exists w' rng',
    spawn_panel no_hit only_A_B (trails demo_world) A B Left true demo_world
      [1 # 4; 3 # 4] = Some (w', rng') /\
    length (trails w') = 2%nat.
Proof.
  destruct (spawn_panel no_hit only_A_B (trails demo_world) A B Left true demo_world
              [1 # 4; 3 # 4]) as [[w' r] |] eqn:Hs; [| vm_compute in Hs; discriminate].
  exists w', r; split; [reflexivity |].
  rewrite (spawn_panel_trail_count no_hit only_A_B _ A B Left true demo_world w' _ r Hs).
  vm_compute; reflexivity.
Defined.

Lemma timer_tick_periods_witness :
  (0 < t_duration auto_timer_default)%N /\
  (t_elapsed auto_timer_default < t_duration auto_timer_default)%N /\
  ((t_elapsed auto_timer_default + 25000000000) / t_duration auto_timer_default <= u32_max)%N /\
  t_times_finished_this_tick (timer_tick 25000000000 auto_timer_default) = 2%N /\
  t_elapsed (timer_tick 25000000000 auto_timer_default) = 5000000000%N.
Proof.
  assert (H1 : (0 < t_duration auto_timer_default)%N) by (vm_compute; reflexivity).
  assert (H2 : (t_elapsed auto_timer_default < t_duration auto_timer_default)%N)
    by (vm_compute; reflexivity).
  assert (H3 : ((t_elapsed auto_timer_default + 25000000000) / t_duration auto_timer_default
                <= u32_max)%N) by (vm_compute; discriminate).
  destruct (timer_tick_periods 25000000000 auto_timer_default H1 H2 H3)
    as (_ & He & Ht & _ & _).
  split; [exact H1 |]. split; [exact H2 |]. split; [exact H3 |].
  rewrite He, Ht; split; vm_compute; reflexivity.
Defined.

Lemma timer_tick_wraps_witness :
  (0 < t_duration auto_timer_default)%N /\
  ((t_elapsed auto_timer_default + 42949672960000000000) / t_duration auto_timer_default
     = u32_max + 1)%N /\
  just_finished (timer_tick 42949672960000000000 auto_timer_default) = false.
Proof.
  assert (H1 : (0 < t_duration auto_timer_default)%N) by (vm_compute; reflexivity).
  assert (H2 : ((t_elapsed auto_timer_default + 42949672960000000000) /
                t_duration auto_timer_default = u32_max + 1)%N) by (vm_compute; reflexivity).
  split; [exact H1 |]. split; [exact H2 |].
  exact (proj1 (timer_tick_wraps 42949672960000000000 auto_timer_default H1 H2)).
Defined.

Lemma timer_tick_zero_duration_witness :
  t_duration (timer_from_ns 0) = 0%N /\
  t_times_finished_this_tick (timer_tick 1000000000 (timer_from_ns 0)) = u32_max.
Proof.
  assert (H : t_duration (timer_from_ns 0) = 0%N) by reflexivity.
  split; [exact H |].
  exact (proj1 (proj2 (timer_tick_zero_duration 1000000000 (timer_from_ns 0) H))).
Defined.

Lemma pack_color_roundtrip_witness :
  (0 <= 1 <= 1) /\ (0 <= 1 # 2 <= 1) /\ (0 <= 0 <= 1) /\
  byte_at (pack_color 1 (1 # 2) 0) 1 = Qfloor ((1 # 2) * 255).
Proof.
  assert (Hr : 0 <= 1 <= 1) by (split; lra).
  assert (Hg : 0 <= 1 # 2 <= 1) by (split; lra).
  assert (Hb : 0 <= 0 <= 1) by (split; lra).
  split; [exact Hr |]. split; [exact Hg |]. split; [exact Hb |].
  destruct (pack_color_roundtrip 1 (1 # 2) 0 Hr Hg Hb) as (_ & _ & H & _); exact H.
Defined.

Lemma pack_color_red_overflow_witness :
  (256 <= 2 * 255 < 512) /\ (0 <= 0 <= 1) /\ byte_at (pack_color 2 0 0) 1 = 1%Z.
Proof.
  assert (Hr : 256 <= 2 * 255 < 512) by (split; lra).
  assert (Hb : 0 <= 0 <= 1) by (split; lra).
  split; [exact Hr |]. split; [exact Hb |].
  exact (pack_color_red_overflow 2 0 Hr Hb).
Defined.

Lemma body_groups_interact_witness :
  interacts (body_groups 1 2 4 ObstacleBody) (body_groups 1 2 4 TriggerZoneBody) = false.
Proof.
  exact (body_groups_interact 1 2 4 ltac:(discriminate) ltac:(discriminate)
           ltac:(discriminate) eq_refl eq_refl eq_refl ObstacleBody TriggerZoneBody).
Defined.

Lemma caster_filter_sees_balls_only_witness :
  interacts (caster_filter_groups 1) (body_groups 1 2 4 PanelRootBody) = false.
Proof.
  exact (caster_filter_sees_balls_only 1 2 4 ltac:(discriminate) eq_refl eq_refl PanelRootBody).
Defined.

Lemma trigger_label_injective_witness :
  factor_fits (Multiply 4) /\ factor_fits (Multiply 4) /\ Multiply 4 = Multiply 4.
Proof.
  assert (H : factor_fits (Multiply 4)) by (cbn; lia).
  split; [exact H |]. split; [exact H |].
  exact (trigger_label_injective (Multiply 4) (Multiply 4) H H eq_refl).
Defined.

Lemma circle_layout_mirror_witness :
  In (nth 1 circle_layout (0, 0)) circle_layout /\
  exists q, In q circle_layout /\ fst q == - fst (nth 1 circle_layout (0, 0)).
Proof.
  assert (H : In (nth 1 circle_layout (0, 0)) circle_layout)
    by (apply nth_In; vm_compute; lia).
  split; [exact H |].
  destruct (circle_layout_mirror _ H) as (q & Hq & Ex & _); eauto.
Defined.

Lemma circle_layout_gaps_witness :
  (0 < 1)%nat /\
  nth_error circle_layout 0 = Some (nth 0 circle_layout (0, 0)) /\
  nth_error circle_layout 1 = Some (nth 1 circle_layout (0, 0)) /\
  (2 * CIRCLE_RADIUS + WORKER_BALL_DIAMETER) * (2 * CIRCLE_RADIUS + WORKER_BALL_DIAMETER)
    <= dist2 (nth 0 circle_layout (0, 0)) (nth 1 circle_layout (0, 0)).
Proof.
  assert (H0 : nth_error circle_layout 0 = Some (nth 0 circle_layout (0, 0)))
    by (vm_compute; reflexivity).
  assert (H1 : nth_error circle_layout 1 = Some (nth 1 circle_layout (0, 0)))
    by (vm_compute; reflexivity).
  assert (Hl : (0 < 1)%nat) by lia.
  split; [exact Hl |]. split; [exact H0 |]. split; [exact H1 |].
  exact (circle_layout_gaps 0 1 _ _ Hl H0 H1).
Defined.

Lemma circle_layout_bounds_witness :
  In (nth 58 circle_layout (0, 0)) circle_layout /\
  TRIGGER_ZONE_Y + TRIGGER_ZONE_HEIGHT / 2 < snd (nth 58 circle_layout (0, 0)) - CIRCLE_RADIUS.
Proof.
  assert (H : In (nth 58 circle_layout (0, 0)) circle_layout)
    by (apply nth_In; vm_compute; lia).
  split; [exact H |].
  exact (proj1 (proj2 (circle_layout_bounds _ H))).
Defined.

Lemma trigger_zones_disjoint_witness :
  (1 < 3)%nat /\
  nth_error trigger_zone_layout 1 = Some (Multiply 2, - ARENA_WIDTH_FRAC_5) /\
  nth_error trigger_zone_layout 3 = Some (BurstShot, -2 * ARENA_WIDTH_FRAC_5) /\
  ARENA_WIDTH_FRAC_5 <= Qabs (- ARENA_WIDTH_FRAC_5 - -2 * ARENA_WIDTH_FRAC_5).
Proof.
  assert (Hl : (1 < 3)%nat) by lia.
  assert (H1 : nth_error trigger_zone_layout 1 = Some (Multiply 2, - ARENA_WIDTH_FRAC_5))
    by reflexivity.
  assert (H3 : nth_error trigger_zone_layout 3 = Some (BurstShot, -2 * ARENA_WIDTH_FRAC_5))
    by reflexivity.
  split; [exact Hl |]. split; [exact H1 |]. split; [exact H3 |].
  exact (trigger_zones_disjoint 1 3 _ _ Hl H1 H3).
Defined.
